(** * Authentication management of [ucsm_apis.admin.auth]

    A shallow embedding of [src/ucsm_apis/admin/auth.py] together with the
    properties its specification states.

    The module is a thin layer over a session handle of the UCS Manager SDK.
    The handle is a mutable Python object; here it is the state of a small
    state-and-exception monad.  A raised exception keeps the handle as it
    was at the raise, exactly as an in-place mutated object would be. *)

From stdpp Require Import base strings gmap list.

Local Open Scope string_scope.
Local Open Scope list_scope.

(** ** Python values held by record properties *)

Inductive pyval : Type :=
  | PNone
  | PStr (s : string)
  | PInt (z : Z)
  | PBool (b : bool).

#[global] Instance pyval_eq_dec : EqDecision pyval.
Proof. solve_decision. Defined.

#[global] Instance pyval_inhabited : Inhabited pyval := populate PNone.

(** Python's [==] on these values: [True == 1] and [False == 0] hold, a
    string equals only the same string, [None] only [None]. *)
Definition py_eq (a b : pyval) : bool :=
  match a, b with
  | PNone, PNone => true
  | PStr s, PStr t => bool_decide (s = t)
  | PInt x, PInt y => bool_decide (x = y)
  | PBool x, PBool y => bool_decide (x = y)
  | PInt x, PBool y | PBool y, PInt x => bool_decide (x = Z.b2z y)
  | _, _ => false
  end.

(** A keyword dictionary ([**kwargs], or a dict literal splatted into a
    call). *)
Abbreviation kwargs := (gmap string pyval).

(** ** Managed objects *)

(** A managed object: its class, its distinguished name (the path in the
    remote object tree) and its properties. *)
Record ManagedObject : Type := MO {
  mo_class : string;
  mo_dn : string;
  mo_props : gmap string pyval
}.

#[global] Instance ManagedObject_eq_dec : EqDecision ManagedObject.
Proof. solve_decision. Defined.

(** Reading a property; a property that was never set reads [None]. *)
Definition getattr (mo : ManagedObject) (k : string) : pyval :=
  default PNone (mo_props mo !! k).

Definition setattr (mo : ManagedObject) (k : string) (v : pyval)
  : ManagedObject :=
  MO (mo_class mo) (mo_dn mo) (<[k := v]> (mo_props mo)).

(** Modelled from the spec: [ManagedObject.set_prop_multiple] belongs to the
    SDK, which is not part of src/.  It walks the dictionary and sets each
    property; a field is set only when a value is provided, a [None] value
    leaves the field as it is. *)
Definition set_prop (k : string) (v : pyval) (mo : ManagedObject)
  : ManagedObject :=
  match v with
  | PNone => mo
  | _ => setattr mo k v
  end.

Definition set_prop_multiple (mo : ManagedObject) (kw : kwargs)
  : ManagedObject :=
  map_fold set_prop mo kw.

(** Modelled from the spec: [ManagedObject.check_prop_match] belongs to the
    SDK.  It compares every key of the dictionary against the corresponding
    field of the record and answers [True] only if all of them match. *)
Definition check_prop_match (mo : ManagedObject) (kw : kwargs) : bool :=
  forallb (fun kv => py_eq (getattr mo kv.1) kv.2) (map_to_list kw).

(** ** Record classes

    Modelled from the spec: the record classes of the SDK ([AaaDomain],
    [AaaDomainAuth], [AaaAuthRealm], [AaaDefaultAuth], [AaaConsoleAuth]) are
    not part of src/.  A constructor resolves the path below its parent from
    the class' relative name and sets the properties it is given. *)

Definition AaaDomain (parent_dn : string) (name : string) (kw : kwargs)
  : ManagedObject :=
  set_prop_multiple
    (MO "AaaDomain" (parent_dn +:+ "/domain-" +:+ name)
        {[ "name" := PStr name ]})
    kw.

Definition AaaDomainAuth (parent_dn : string) (kw : kwargs) : ManagedObject :=
  set_prop_multiple (MO "AaaDomainAuth" (parent_dn +:+ "/domain-auth") ∅) kw.

Definition AaaAuthRealm (parent_dn : string) (kw : kwargs) : ManagedObject :=
  set_prop_multiple (MO "AaaAuthRealm" (parent_dn +:+ "/auth-realm") ∅) kw.

Definition AaaDefaultAuth (parent_dn : string) (kw : kwargs) : ManagedObject :=
  set_prop_multiple (MO "AaaDefaultAuth" (parent_dn +:+ "/default-auth") ∅) kw.

Definition AaaConsoleAuth (parent_dn : string) (kw : kwargs) : ManagedObject :=
  set_prop_multiple (MO "AaaConsoleAuth" (parent_dn +:+ "/console-auth") ∅) kw.

(** ** Exceptions *)

Inductive exn : Type :=
  | UcsOperationError (operation : string) (message : string)
  | UcsException (message : string).

Inductive result (A : Type) : Type :=
  | Ok (a : A)
  | Raise (e : exn).
Arguments Ok {A} a.
Arguments Raise {A} e.

(** ** The session handle

    Modelled from the spec: the session handle ([UcsHandle]) belongs to the
    SDK.  Its contract is [query_dn], [add_mo] (with its [modify_present]
    flag), [set_mo], [remove_mo] and [commit]; add, set and remove stage an
    action, commit applies the staged actions to the remote system.  A
    record handed to the handle is not altered by it, and [query_dn] answers
    with the record the remote tree holds at the path, or [None]. *)

Inductive staged : Type :=
  | StAdd (mo : ManagedObject) (modify_present : bool)
  | StSet (mo : ManagedObject)
  | StRemove (mo : ManagedObject).

(** The calls a handle has received, in order. *)
Inductive call : Type :=
  | CQuery (dn : string)
  | CAdd (mo : ManagedObject) (modify_present : bool)
  | CSet (mo : ManagedObject)
  | CRemove (mo : ManagedObject)
  | CCommit.

Record UcsHandle : Type := Handle {
  remote : list ManagedObject;
  commit_buf : list staged;
  calls : list call
}.

(** The remote object tree is kept as a list of records, so that a path
    held twice would be representable. *)
Definition at_dn (dn : string) (mo : ManagedObject) : bool :=
  bool_decide (mo_dn mo = dn).

Definition lookup_dn (dn : string) (db : list ManagedObject)
  : option ManagedObject :=
  find (at_dn dn) db.

Definition count_dn (dn : string) (db : list ManagedObject) : nat :=
  length (filter (fun mo => mo_dn mo = dn) db).

(** Overwriting the fields of the record at the path of [mo] with the
    fields [mo] carries. *)
Definition overwrite (mo r : ManagedObject) : ManagedObject :=
  if at_dn (mo_dn mo) r
  then MO (mo_class r) (mo_dn r) (mo_props mo ∪ mo_props r)
  else r.

Definition upsert (mo : ManagedObject) (db : list ManagedObject)
  : list ManagedObject :=
  match lookup_dn (mo_dn mo) db with
  | Some _ => overwrite mo <$> db
  | None => db ++ [mo]
  end.

(** One staged action applied to the remote tree; [None] when the remote
    system rejects it. *)
Definition apply_staged (db : list ManagedObject) (st : staged)
  : option (list ManagedObject) :=
  match st with
  | StAdd mo modify_present =>
      match lookup_dn (mo_dn mo) db with
      | Some _ => if modify_present then Some (upsert mo db) else None
      | None => Some (upsert mo db)
      end
  | StSet mo => Some (upsert mo db)
  | StRemove mo =>
      match lookup_dn (mo_dn mo) db with
      | Some _ => Some (filter (fun r => mo_dn r ≠ mo_dn mo) db)
      | None => None
      end
  end.

Fixpoint apply_all (db : list ManagedObject) (sts : list staged)
  : option (list ManagedObject) :=
  match sts with
  | [] => Some db
  | st :: sts' =>
      match apply_staged db st with
      | Some db' => apply_all db' sts'
      | None => None
      end
  end.

(** ** The monad of handle operations *)

Definition Py (A : Type) : Type := UcsHandle -> UcsHandle * result A.

Definition ret {A} (a : A) : Py A := fun h => (h, Ok a).

Definition raise {A} (e : exn) : Py A := fun h => (h, Raise e).

Definition bind {A B} (m : Py A) (k : A -> Py B) : Py B :=
  fun h =>
    match m h with
    | (h', Ok a) => k a h'
    | (h', Raise e) => (h', Raise e)
    end.

(** [try: a = m / except UcsOperationError: return handler], followed by
    the rest [k a] of the function, which runs outside the [try]. *)
Definition try_except_operation_error {A B} (m : Py A) (handler : Py B)
    (k : A -> Py B) : Py B :=
  fun h =>
    match m h with
    | (h', Ok a) => k a h'
    | (h', Raise (UcsOperationError _ _)) => handler h'
    | (h', Raise e) => (h', Raise e)
    end.

Notation "x <~ m ;; k" := (bind m (fun x => k))
  (at level 100, m at next level, right associativity).
Notation "m ;;; k" := (bind m (fun _ => k))
  (at level 100, right associativity).

Definition record_call (c : call) (h : UcsHandle) : UcsHandle :=
  Handle (remote h) (commit_buf h) (calls h ++ [c]).

Definition stage (st : staged) (h : UcsHandle) : UcsHandle :=
  Handle (remote h) (commit_buf h ++ [st]) (calls h).

Definition query_dn (dn : string) : Py (option ManagedObject) :=
  fun h => (record_call (CQuery dn) h, Ok (lookup_dn dn (remote h))).

Definition add_mo (mo : ManagedObject) (modify_present : bool) : Py unit :=
  fun h => (stage (StAdd mo modify_present)
                  (record_call (CAdd mo modify_present) h), Ok tt).

Definition set_mo (mo : ManagedObject) : Py unit :=
  fun h => (stage (StSet mo) (record_call (CSet mo) h), Ok tt).

Definition remove_mo (mo : ManagedObject) : Py unit :=
  fun h => (stage (StRemove mo) (record_call (CRemove mo) h), Ok tt).

(** Commit sends what is staged and empties the buffer; when the remote
    system rejects the request nothing is applied and the rejection
    propagates as the SDK's own exception. *)
Definition commit : Py unit :=
  fun h =>
    match apply_all (remote h) (commit_buf h) with
    | Some db => (Handle db [] (calls h ++ [CCommit]), Ok tt)
    | None =>
        (Handle (remote h) [] (calls h ++ [CCommit]),
         Raise (UcsException "commit rejected"))
    end.

(** ** The module [ucsm_apis.admin.auth] *)

Definition _auth_realm_dn : string := "sys/auth-realm".

Definition auth_domain_get (name : string) (caller : string)
  : Py ManagedObject :=
  let dn := (_auth_realm_dn +:+ "/domain-") +:+ name in
  mo <~ query_dn dn ;;
  match mo with
  | None =>
      raise (UcsOperationError caller
               ("Auth Domain '" +:+ dn +:+ "' does not exist"))
  | Some mo => ret mo
  end.

Definition auth_domain_create (name : string)
    (refresh_period session_timeout descr : pyval) (kw : kwargs)
  : Py ManagedObject :=
  let mo := AaaDomain _auth_realm_dn name
              {[ "refresh_period" := refresh_period;
                 "session_timeout" := session_timeout;
                 "descr" := descr ]} in
  let mo := set_prop_multiple mo kw in
  add_mo mo true ;;;
  commit ;;;
  ret mo.

Definition auth_domain_exists (name : string) (kw : kwargs)
  : Py (bool * option ManagedObject) :=
  try_except_operation_error
    (auth_domain_get name "auth_domain_exists")
    (ret (false, None))
    (fun mo =>
       let mo_exists := check_prop_match mo kw in
       ret (mo_exists, if mo_exists then Some mo else None)).

Definition auth_domain_modify (name : string) (kw : kwargs)
  : Py ManagedObject :=
  mo <~ auth_domain_get name "auth_domain_modify" ;;
  let mo := set_prop_multiple mo kw in
  set_mo mo ;;;
  commit ;;;
  ret mo.

Definition auth_domain_delete (name : string) : Py unit :=
  mo <~ auth_domain_get name "auth_domain_delete" ;;
  remove_mo mo ;;;
  commit.

Definition auth_domain_realm_configure (domain_name : string)
    (realm : pyval) (use2_factor : bool)
    (provider_group name descr : pyval) (kw : kwargs)
  : Py ManagedObject :=
  obj <~ auth_domain_get domain_name "auth_domain_realm_configure" ;;
  (* ("no", "yes")[use2_factor] *)
  let use2_factor := if use2_factor then "yes" else "no" in
  let mo := AaaDomainAuth (mo_dn obj)
              {[ "realm" := realm;
                 "use2_factor" := PStr use2_factor;
                 "provider_group" := provider_group;
                 "name" := name;
                 "descr" := descr ]} in
  let mo := set_prop_multiple mo kw in
  set_mo mo ;;;
  commit ;;;
  ret mo.

(** The dictionary [args] of [native_auth_configure]. *)
Definition native_auth_configure_args
    (def_role_policy def_login con_login descr : pyval) : kwargs :=
  {[ "def_role_policy" := def_role_policy;
     "def_login" := def_login;
     "con_login" := con_login;
     "descr" := descr ]}.

Definition native_auth_configure
    (def_role_policy def_login con_login descr : pyval) (kw : kwargs)
  : Py ManagedObject :=
  let mo := AaaAuthRealm "sys" ∅ in
  let args :=
    native_auth_configure_args def_role_policy def_login con_login descr in
  let mo := set_prop_multiple mo args in
  let mo := set_prop_multiple mo kw in
  set_mo mo ;;;
  commit ;;;
  ret mo.

Definition native_auth_default
    (realm session_timeout refresh_period provider_group name descr : pyval)
    (kw : kwargs)
  : Py ManagedObject :=
  let mo := AaaDefaultAuth _auth_realm_dn ∅ in
  let args : kwargs :=
    {[ "realm" := realm;
       "session_timeout" := session_timeout;
       "refresh_period" := refresh_period;
       "provider_group" := provider_group;
       "name" := name;
       "descr" := descr ]} in
  let mo := set_prop_multiple mo args in
  let mo := set_prop_multiple mo kw in
  set_mo mo ;;;
  commit ;;;
  ret mo.

Definition native_auth_console
    (realm provider_group name descr : pyval) (kw : kwargs)
  : Py ManagedObject :=
  let mo := AaaConsoleAuth _auth_realm_dn ∅ in
  let args : kwargs :=
    {[ "realm" := realm;
       "provider_group" := provider_group;
       "name" := name;
       "descr" := descr ]} in
  let mo := set_prop_multiple mo args in
  let mo := set_prop_multiple mo kw in
  set_mo mo ;;;
  commit ;;;
  ret mo.

(** ** Vocabulary of the properties *)

(** A handle on which nothing is staged; every operation of the module
    leaves the handle in this condition. *)
Definition idle (h : UcsHandle) : Prop := commit_buf h = [].

(** The path of the auth domain called [name]. *)
Definition domain_dn (name : string) : string :=
  "sys/auth-realm/domain-" +:+ name.

(** The message of the error raised for a path that holds no record. *)
Definition does_not_exist (dn : string) : string :=
  "Auth Domain '" +:+ dn +:+ "' does not exist".

(** The outcome of one property of the walk: a provided value wins, a
    [None] or a missing key keeps what the record had. *)
Definition overlay (old : option pyval) (new : option pyval) : option pyval :=
  match new with
  | Some v => if decide (v = PNone) then old else Some v
  | None => old
  end.

(** Every expected property equals, as Python compares, the field of the
    record. *)
Definition matches (mo : ManagedObject) (kw : kwargs) : Prop :=
  ∀ k v, kw !! k = Some v → py_eq (getattr mo k) v = true.

(** No path is held by two records. *)
Definition unique_paths (db : list ManagedObject) : Prop :=
  NoDup (mo_dn <$> db).

(** The record an upsert leaves at the path it writes. *)
Definition upserted (mo : ManagedObject) (db : list ManagedObject)
  : ManagedObject :=
  match lookup_dn (mo_dn mo) db with
  | Some r => MO (mo_class r) (mo_dn r) (mo_props mo ∪ mo_props r)
  | None => mo
  end.

(** The value a path of the remote tree holds for a field; [None] when the
    path holds no record. *)
Definition remote_field (dn k : string) (db : list ManagedObject) : pyval :=
  from_option (fun r => getattr r k) PNone (lookup_dn dn db).

(** Python's default arguments of [auth_domain_get],
    [auth_domain_create] and [auth_domain_realm_configure]. *)
Definition default_caller : string := "auth_domain_get".
Definition default_refresh_period : pyval := PStr "600".
Definition default_session_timeout : pyval := PStr "7200".
Definition default_realm : pyval := PStr "local".


(** The condition on a handle that every operation keeps: no path is held
    twice, and a handle at rest stays at rest. *)
Definition keeps {A} (m : Py A) : Prop :=
  ∀ h, (unique_paths (remote h) → unique_paths (remote (m h).1)) ∧
       (idle h → idle (m h).1).

(** ** Vocabulary of the further properties *)

(** The calls that stage a change. *)
Definition is_write (c : call) : bool :=
  match c with
  | CAdd _ _ | CSet _ | CRemove _ => true
  | CQuery _ | CCommit => false
  end.

(** At most one read, then at most one write, a write directly followed by
    its commit. *)
Definition one_round_trip (t : list call) : bool :=
  match t with
  | [CQuery _] => true
  | [w; CCommit] => is_write w
  | [CQuery _; w; CCommit] => is_write w
  | _ => false
  end.

(** The dictionary [args] of [native_auth_default]. *)
Definition native_auth_default_args
    (realm session_timeout refresh_period provider_group name descr : pyval)
  : kwargs :=
  {[ "realm" := realm;
     "session_timeout" := session_timeout;
     "refresh_period" := refresh_period;
     "provider_group" := provider_group;
     "name" := name;
     "descr" := descr ]}.

(** The dictionary [args] of [native_auth_console]. *)
Definition native_auth_console_args
    (realm provider_group name descr : pyval) : kwargs :=
  {[ "realm" := realm;
     "provider_group" := provider_group;
     "name" := name;
     "descr" := descr ]}.

(** The keyword arguments [auth_domain_realm_configure] hands to the
    constructor of the realm record. *)
Definition auth_domain_realm_configure_args
    (realm : pyval) (use2_factor : bool) (provider_group name descr : pyval)
  : kwargs :=
  {[ "realm" := realm;
     "use2_factor" := PStr (if use2_factor then "yes" else "no");
     "provider_group" := provider_group;
     "name" := name;
     "descr" := descr ]}.

(** The keyword arguments [auth_domain_create] hands to the constructor of
    the domain record. *)
Definition auth_domain_create_args
    (refresh_period session_timeout descr : pyval) : kwargs :=
  {[ "refresh_period" := refresh_period;
     "session_timeout" := session_timeout;
     "descr" := descr ]}.

(** An operation raised the module's own error. *)
Definition raised_operation_error {A} (r : result A) : Prop :=
  ∃ op msg, r = Raise (UcsOperationError op msg).

(** The record [auth_domain_create] builds and submits. *)
Definition domain_record (name : string)
    (refresh_period session_timeout descr : pyval) (kw : kwargs)
  : ManagedObject :=
  set_prop_multiple
    (AaaDomain _auth_realm_dn name
       (auth_domain_create_args refresh_period session_timeout descr))
    kw.

(** A dictionary that gives no key as [None]. *)
Definition all_provided (kw : kwargs) : Prop :=
  map_Forall (fun _ v => v ≠ PNone) kw.

(** An operation went through to its write, on a handle with anything
    staged: nothing is left staged, the calls were [before], the write [w]
    and the commit, and the outcome is the value [a] or the SDK's own
    exception. *)
Definition wrote {A} (h : UcsHandle) (out : UcsHandle * result A)
    (before : list call) (w : call) (a : A) : Prop :=
  commit_buf out.1 = [] ∧
  calls out.1 = calls h ++ before ++ [w; CCommit] ∧
  (out.2 = Ok a ∨ ∃ msg, out.2 = Raise (UcsException msg)).

(** An operation stopped at the lookup of the domain [name]: the handle
    has only seen the query and the error carries the operation's name. *)
Definition not_found {A} (h : UcsHandle) (out : UcsHandle * result A)
    (name operation : string) : Prop :=
  out = (record_call (CQuery (domain_dn name)) h,
         Raise (UcsOperationError operation (does_not_exist (domain_dn name)))).

(** ** Sample data

    A remote tree that holds the auth domain [d1] with the default refresh
    period and session timeout, and a property the signatures of the module
    do not name. *)

Definition sample_domain : ManagedObject :=
  MO "AaaDomain" "sys/auth-realm/domain-d1"
     {[ "name" := PStr "d1";
        "refresh_period" := PStr "600";
        "session_timeout" := PStr "7200" ]}.

Definition sample_handle : UcsHandle := Handle [sample_domain] [] [].

Definition sample_extra : kwargs := {[ "policy_owner" := PStr "policy" ]}.



(** * Properties *)

(** ** Managed objects *)

Section managed_objects.
Implicit Types (mo : ManagedObject) (kw : kwargs) (k : string) (v : pyval).

Lemma getattr_lookup mo k v :
  mo_props mo !! k = Some v → getattr mo k = v.
Proof. unfold getattr. by intros ->. Qed.

Lemma getattr_lookup_None mo k :
  mo_props mo !! k = None → getattr mo k = PNone.
Proof. unfold getattr. by intros ->. Qed.

Lemma lookup_getattr mo k v :
  getattr mo k = v → v ≠ PNone → mo_props mo !! k = Some v.
Proof.
  unfold getattr. destruct (mo_props mo !! k); simpl; congruence.
Qed.

Lemma props_set_prop mo k v k' :
  mo_props (set_prop k v mo) !! k' =
    if decide (k = k' ∧ v ≠ PNone) then Some v else mo_props mo !! k'.
Proof.
  destruct (decide (k = k')) as [<-|Hne].
  - destruct v; simpl; rewrite ?lookup_insert_eq;
      (rewrite decide_True by done) || (rewrite decide_False by tauto);
      reflexivity.
  - rewrite decide_False by tauto.
    destruct v; simpl; rewrite ?lookup_insert_ne by done; reflexivity.
Qed.

Lemma set_prop_class k v mo : mo_class (set_prop k v mo) = mo_class mo.
Proof. by destruct v. Qed.

Lemma set_prop_dn k v mo : mo_dn (set_prop k v mo) = mo_dn mo.
Proof. by destruct v. Qed.

(** What the walk over the dictionary amounts to. *)
Lemma set_prop_multiple_spec mo kw :
  mo_class (set_prop_multiple mo kw) = mo_class mo ∧
  mo_dn (set_prop_multiple mo kw) = mo_dn mo ∧
  ∀ k, mo_props (set_prop_multiple mo kw) !! k =
         overlay (mo_props mo !! k) (kw !! k).
Proof.
  unfold set_prop_multiple.
  apply (map_fold_weak_ind
           (fun r (m : kwargs) =>
              mo_class r = mo_class mo ∧ mo_dn r = mo_dn mo ∧
              ∀ k, mo_props r !! k = overlay (mo_props mo !! k) (m !! k))).
  - split_and!; [done..|]. intros k. by rewrite lookup_empty.
  - intros i x m r Hi (Hc & Hd & Hg). split_and!.
    + by rewrite set_prop_class.
    + by rewrite set_prop_dn.
    + intros k. rewrite props_set_prop, Hg.
      destruct (decide (i = k)) as [->|Hne].
      * rewrite lookup_insert_eq, Hi. unfold overlay.
        destruct (decide (x = PNone)) as [->|Hx].
        -- by rewrite decide_False by tauto.
        -- by rewrite decide_True by done.
      * rewrite lookup_insert_ne by done. by rewrite decide_False by tauto.
Qed.

Lemma set_prop_multiple_class mo kw :
  mo_class (set_prop_multiple mo kw) = mo_class mo.
Proof. apply set_prop_multiple_spec. Qed.

Lemma set_prop_multiple_dn mo kw :
  mo_dn (set_prop_multiple mo kw) = mo_dn mo.
Proof. apply set_prop_multiple_spec. Qed.

Lemma props_set_prop_multiple mo kw k :
  mo_props (set_prop_multiple mo kw) !! k =
    overlay (mo_props mo !! k) (kw !! k).
Proof. apply set_prop_multiple_spec. Qed.

(** A provided value of the dictionary is the value the record holds. *)
Lemma props_set_prop_multiple_Some mo kw k v :
  kw !! k = Some v → v ≠ PNone →
  mo_props (set_prop_multiple mo kw) !! k = Some v.
Proof.
  intros Hk Hv. rewrite props_set_prop_multiple, Hk. simpl.
  by rewrite decide_False.
Qed.

Lemma getattr_set_prop_multiple_Some mo kw k v :
  kw !! k = Some v → v ≠ PNone → getattr (set_prop_multiple mo kw) k = v.
Proof.
  intros Hk Hv. by apply getattr_lookup, props_set_prop_multiple_Some.
Qed.

(** A key the dictionary lacks, or gives as [None], keeps its value. *)
Lemma props_set_prop_multiple_keep mo kw k :
  kw !! k = None ∨ kw !! k = Some PNone →
  mo_props (set_prop_multiple mo kw) !! k = mo_props mo !! k.
Proof.
  intros [Hk|Hk]; by rewrite props_set_prop_multiple, Hk.
Qed.

Lemma getattr_set_prop_multiple_keep mo kw k :
  kw !! k = None ∨ kw !! k = Some PNone →
  getattr (set_prop_multiple mo kw) k = getattr mo k.
Proof.
  intros Hk. unfold getattr. by rewrite props_set_prop_multiple_keep.
Qed.

Lemma set_prop_multiple_empty mo : set_prop_multiple mo ∅ = mo.
Proof. unfold set_prop_multiple. apply map_fold_empty. Qed.

(** The walk only ever adds to what the record holds. *)
Lemma props_set_prop_multiple_absorb mo kw :
  mo_props (set_prop_multiple mo kw) ∪ mo_props mo =
    mo_props (set_prop_multiple mo kw).
Proof.
  apply map_eq. intros k. rewrite lookup_union, props_set_prop_multiple.
  unfold overlay. destruct (kw !! k) as [v|]; [case_decide|];
    by destruct (mo_props mo !! k).
Qed.

Lemma py_eq_refl v : py_eq v v = true.
Proof. destruct v; simpl; by rewrite ?bool_decide_eq_true_2. Qed.

(** Against a string, or against [None], Python's [==] is identity. *)
Lemma py_eq_str s v : py_eq (PStr s) v = true ↔ v = PStr s.
Proof.
  destruct v; simpl; try (split; [done|congruence]).
  rewrite bool_decide_eq_true. split; congruence.
Qed.

Lemma py_eq_none v : py_eq PNone v = true ↔ v = PNone.
Proof. destruct v; simpl; split; congruence. Qed.

Lemma check_prop_match_spec mo kw :
  check_prop_match mo kw = true ↔ matches mo kw.
Proof.
  unfold check_prop_match, matches. rewrite forallb_forall. split.
  - intros H k v Hk.
    apply (H (k, v)), list_elem_of_In, elem_of_map_to_list. exact Hk.
  - intros H [k v] Hin. simpl.
    apply H. by apply elem_of_map_to_list, list_elem_of_In.
Qed.

Lemma check_prop_match_empty mo : check_prop_match mo ∅ = true.
Proof. apply check_prop_match_spec. intros k v. by rewrite lookup_empty. Qed.
End managed_objects.

(** ** The remote object tree *)

Section remote_tree.
Implicit Types (mo r : ManagedObject) (db : list ManagedObject)
               (dn : string).

Lemma lookup_dn_Some dn db r :
  lookup_dn dn db = Some r → mo_dn r = dn ∧ r ∈ db.
Proof.
  unfold lookup_dn. intros H. apply find_some in H as [Hin Hdn].
  split; [|by apply list_elem_of_In].
  unfold at_dn in Hdn. by apply bool_decide_eq_true in Hdn.
Qed.

Lemma lookup_dn_None dn db :
  lookup_dn dn db = None ↔ ∀ r, r ∈ db → mo_dn r ≠ dn.
Proof.
  unfold lookup_dn. split.
  - intros H r Hin Hdn.
    apply list_elem_of_In in Hin.
    pose proof (find_none _ _ H r Hin) as Hf.
    unfold at_dn in Hf. by rewrite bool_decide_eq_true_2 in Hf.
  - intros H. induction db as [|x db IH]; [done|]. simpl.
    unfold at_dn at 1. rewrite bool_decide_eq_false_2.
    + apply IH. intros r Hr. apply H. by right.
    + apply H. by left.
Qed.

Lemma count_dn_nil dn : count_dn dn [] = 0.
Proof. done. Qed.

Lemma count_dn_cons dn r db :
  count_dn dn (r :: db) =
    (if decide (mo_dn r = dn) then 1 else 0) + count_dn dn db.
Proof.
  unfold count_dn. rewrite filter_cons. by case_decide.
Qed.

Lemma count_dn_app dn db1 db2 :
  count_dn dn (db1 ++ db2) = count_dn dn db1 + count_dn dn db2.
Proof. unfold count_dn. by rewrite filter_app, length_app. Qed.

Lemma count_dn_0 dn db : count_dn dn db = 0 ↔ lookup_dn dn db = None.
Proof.
  induction db as [|r db IH]; [done|].
  rewrite count_dn_cons. unfold lookup_dn in *. simpl. unfold at_dn at 1.
  destruct (decide (mo_dn r = dn)) as [Heq|Hne].
  - rewrite bool_decide_eq_true_2 by done. split; [lia|done].
  - rewrite bool_decide_eq_false_2 by done. simpl. exact IH.
Qed.

Lemma count_dn_unique dn db : unique_paths db → (count_dn dn db ≤ 1)%nat.
Proof.
  unfold unique_paths. induction db as [|r db IH]; simpl; [intros; cbv; lia|].
  rewrite NoDup_cons, count_dn_cons. intros [Hr Hnd].
  case_decide as Hdn; [|specialize (IH Hnd); lia].
  assert (count_dn dn db = 0) as ->; [|lia].
  apply count_dn_0, lookup_dn_None. intros r' Hin Heq. apply Hr.
  rewrite Hdn, <- Heq. by apply list_elem_of_fmap_2.
Qed.

Lemma overwrite_dn mo r : mo_dn (overwrite mo r) = mo_dn r.
Proof. unfold overwrite. by destruct (at_dn _ _). Qed.

Lemma fmap_dn_overwrite mo db :
  mo_dn <$> (overwrite mo <$> db) = mo_dn <$> db.
Proof.
  induction db as [|r db IH]; [done|].
  by rewrite !fmap_cons, overwrite_dn, IH.
Qed.

Lemma count_dn_overwrite mo dn db :
  count_dn dn (overwrite mo <$> db) = count_dn dn db.
Proof.
  induction db as [|r db IH]; [done|].
  by rewrite fmap_cons, !count_dn_cons, overwrite_dn, IH.
Qed.

Lemma lookup_dn_overwrite mo dn db :
  lookup_dn dn (overwrite mo <$> db) = overwrite mo <$> lookup_dn dn db.
Proof.
  unfold lookup_dn. induction db as [|r db IH]; [done|].
  rewrite fmap_cons. simpl. unfold at_dn at 1 3. rewrite overwrite_dn.
  by destruct (bool_decide (mo_dn r = dn)).
Qed.

Lemma lookup_dn_app dn db1 db2 :
  lookup_dn dn (db1 ++ db2) =
    match lookup_dn dn db1 with
    | Some r => Some r
    | None => lookup_dn dn db2
    end.
Proof.
  unfold lookup_dn. induction db1 as [|r db1 IH]; [done|]. simpl.
  by destruct (at_dn dn r).
Qed.

Lemma lookup_dn_upsert mo db :
  lookup_dn (mo_dn mo) (upsert mo db) = Some (upserted mo db).
Proof.
  unfold upsert, upserted.
  destruct (lookup_dn (mo_dn mo) db) as [r|] eqn:Hl.
  - rewrite lookup_dn_overwrite, Hl. simpl. unfold overwrite, at_dn.
    apply lookup_dn_Some in Hl as [Hdn _].
    by rewrite bool_decide_eq_true_2.
  - rewrite lookup_dn_app, Hl. unfold lookup_dn. simpl. unfold at_dn.
    by rewrite bool_decide_eq_true_2.
Qed.

Lemma lookup_dn_upsert_ne mo dn db :
  dn ≠ mo_dn mo → lookup_dn dn (upsert mo db) = lookup_dn dn db.
Proof.
  intros Hne. unfold upsert.
  destruct (lookup_dn (mo_dn mo) db) as [r|] eqn:Hl.
  - rewrite lookup_dn_overwrite.
    destruct (lookup_dn dn db) as [r'|] eqn:Hl'; [|done]. simpl.
    apply lookup_dn_Some in Hl' as [Hdn _].
    unfold overwrite, at_dn. rewrite bool_decide_eq_false_2; [done|].
    congruence.
  - rewrite lookup_dn_app.
    destruct (lookup_dn dn db); [done|].
    unfold lookup_dn. simpl. unfold at_dn.
    rewrite bool_decide_eq_false_2; [done|congruence].
Qed.

(** A provided field of the written record is the field the tree holds;
    a field the written record lacks keeps the value the tree had. *)
Lemma getattr_upserted mo db k :
  getattr (upserted mo db) k =
    match mo_props mo !! k with
    | Some v => v
    | None => from_option (fun r => getattr r k) PNone
                          (lookup_dn (mo_dn mo) db)
    end.
Proof.
  unfold upserted, getattr.
  destruct (lookup_dn (mo_dn mo) db) as [r|]; simpl.
  - rewrite lookup_union. by destruct (mo_props mo !! k), (mo_props r !! k).
  - by destruct (mo_props mo !! k).
Qed.

Lemma upserted_dn mo db : mo_dn (upserted mo db) = mo_dn mo.
Proof.
  unfold upserted. destruct (lookup_dn _ _) as [r|] eqn:Hl; [|done].
  by apply lookup_dn_Some in Hl as [-> _].
Qed.

Lemma count_dn_upsert mo dn db :
  count_dn dn (upsert mo db) =
    match lookup_dn (mo_dn mo) db with
    | Some _ => count_dn dn db
    | None => count_dn dn db + if decide (mo_dn mo = dn) then 1 else 0
    end.
Proof.
  unfold upsert. destruct (lookup_dn (mo_dn mo) db).
  - apply count_dn_overwrite.
  - rewrite count_dn_app. f_equal. unfold count_dn.
    rewrite filter_cons. by case_decide.
Qed.

Lemma unique_paths_upsert mo db :
  unique_paths db → unique_paths (upsert mo db).
Proof.
  unfold unique_paths, upsert. intros Hnd.
  destruct (lookup_dn (mo_dn mo) db) eqn:Hl.
  - by rewrite fmap_dn_overwrite.
  - rewrite fmap_app. apply NoDup_app. split_and!; [done| |].
    + intros dn Hin Hin'. simpl in Hin'.
      apply list_elem_of_singleton in Hin'. subst dn.
      apply list_elem_of_fmap in Hin as (r & Heq & Hr).
      rewrite lookup_dn_None in Hl. by apply (Hl r).
    + simpl. apply NoDup_singleton.
Qed.

(** An upsert keeps one record per path: exactly one record sits at the
    written path afterwards. *)
Lemma count_dn_upsert_unique mo db :
  unique_paths db → count_dn (mo_dn mo) (upsert mo db) = 1.
Proof.
  intros Hnd. pose proof (count_dn_unique (mo_dn mo) _
                            (unique_paths_upsert mo db Hnd)) as Hle.
  pose proof (lookup_dn_upsert mo db) as Hl.
  destruct (count_dn (mo_dn mo) (upsert mo db)) as [|n] eqn:Hc; [|lia].
  apply count_dn_0 in Hc. congruence.
Qed.

Lemma lookup_dn_removed dn db :
  lookup_dn dn (filter (fun r => mo_dn r ≠ dn) db) = None.
Proof.
  apply lookup_dn_None. intros r Hin.
  by apply list_elem_of_filter in Hin as [Hne _].
Qed.

Lemma lookup_dn_removed_ne dn dn' db :
  dn' ≠ dn →
  lookup_dn dn' (filter (fun r => mo_dn r ≠ dn) db) = lookup_dn dn' db.
Proof.
  intros Hne. unfold lookup_dn. induction db as [|r db IH]; [done|].
  rewrite filter_cons. simpl. unfold at_dn at 2.
  case_decide as Hr.
  - simpl. unfold at_dn at 1. by destruct (bool_decide (mo_dn r = dn')).
  - rewrite bool_decide_eq_false_2 by congruence. exact IH.
Qed.
End remote_tree.

(** ** The operations of the module on a handle *)

Section operations.
Implicit Types (h : UcsHandle) (db : list ManagedObject) (cs : list call)
               (mo r : ManagedObject) (kw : kwargs) (name : string).

Lemma upserted_set_prop_multiple r kw db :
  lookup_dn (mo_dn r) db = Some r →
  upserted (set_prop_multiple r kw) db = set_prop_multiple r kw.
Proof.
  intros Hl. unfold upserted. rewrite set_prop_multiple_dn, Hl.
  rewrite props_set_prop_multiple_absorb.
  rewrite <- (set_prop_multiple_class r kw), <- (set_prop_multiple_dn r kw).
  by destruct (set_prop_multiple r kw).
Qed.

Lemma overwrite_idemp mo r : overwrite mo (overwrite mo r) = overwrite mo r.
Proof.
  unfold overwrite. destruct (at_dn (mo_dn mo) r) eqn:Hr; simpl.
  - unfold at_dn in *. simpl. rewrite Hr. f_equal.
    by rewrite (assoc (∪)), (idemp (∪)).
  - by rewrite Hr.
Qed.

Lemma overwrite_self mo : overwrite mo mo = mo.
Proof.
  unfold overwrite, at_dn. rewrite bool_decide_eq_true_2 by done.
  rewrite (idemp (∪)). by destruct mo.
Qed.

Lemma overwrite_other mo r : mo_dn r ≠ mo_dn mo → overwrite mo r = r.
Proof.
  intros Hne. unfold overwrite, at_dn. by rewrite bool_decide_eq_false_2.
Qed.

(** Writing the same record again changes nothing. *)
Lemma upsert_idemp mo db : upsert mo (upsert mo db) = upsert mo db.
Proof.
  unfold upsert at 1. rewrite lookup_dn_upsert. unfold upsert.
  destruct (lookup_dn (mo_dn mo) db) as [r|] eqn:Hl.
  - rewrite <- list_fmap_compose. apply list_fmap_ext.
    intros i x _. simpl. apply overwrite_idemp.
  - rewrite fmap_app. simpl. rewrite overwrite_self. f_equal.
    rewrite <- (list_fmap_id db) at 2. apply list_fmap_ext.
    intros i x Hx. simpl. apply overwrite_other.
    rewrite lookup_dn_None in Hl. apply Hl. by eapply list_elem_of_lookup_2.
Qed.

Lemma auth_domain_get_eq name caller h :
  auth_domain_get name caller h =
    (record_call (CQuery (domain_dn name)) h,
     match lookup_dn (domain_dn name) (remote h) with
     | Some mo => Ok mo
     | None =>
         Raise (UcsOperationError caller (does_not_exist (domain_dn name)))
     end).
Proof.
  unfold auth_domain_get, bind, query_dn.
  change ((_auth_realm_dn +:+ "/domain-") +:+ name) with (domain_dn name).
  cbn beta iota zeta.
  by destruct (lookup_dn (domain_dn name) (remote h)).
Qed.

Lemma bind_raise {A B} (m : Py A) (k : A → Py B) h h' e :
  m h = (h', Raise e) → bind m k h = (h', Raise e).
Proof. unfold bind. by intros ->. Qed.

Lemma bind_ok {A B} (m : Py A) (k : A → Py B) h h' a :
  m h = (h', Ok a) → bind m k h = k a h'.
Proof. unfold bind. by intros ->. Qed.

Lemma auth_domain_get_missing_eq name caller h :
  lookup_dn (domain_dn name) (remote h) = None →
  auth_domain_get name caller h =
    (record_call (CQuery (domain_dn name)) h,
     Raise (UcsOperationError caller (does_not_exist (domain_dn name)))).
Proof. intros Hl. by rewrite auth_domain_get_eq, Hl. Qed.

Lemma auth_domain_get_found_eq name caller h r :
  lookup_dn (domain_dn name) (remote h) = Some r →
  auth_domain_get name caller h =
    (record_call (CQuery (domain_dn name)) h, Ok r).
Proof. intros Hl. by rewrite auth_domain_get_eq, Hl. Qed.

Lemma add_mo_commit db cs mo :
  (add_mo mo true ;;; commit ;;; ret mo) (Handle db [] cs) =
    (Handle (upsert mo db) [] (cs ++ [CAdd mo true; CCommit]), Ok mo).
Proof.
  unfold bind, add_mo, commit, stage, record_call, ret. simpl.
  destruct (lookup_dn (mo_dn mo) db); simpl; by rewrite <- app_assoc.
Qed.

Lemma set_mo_commit db cs mo :
  (set_mo mo ;;; commit ;;; ret mo) (Handle db [] cs) =
    (Handle (upsert mo db) [] (cs ++ [CSet mo; CCommit]), Ok mo).
Proof.
  unfold bind, set_mo, commit, stage, record_call, ret. simpl.
  by rewrite <- app_assoc.
Qed.

Lemma remove_mo_commit db cs mo r :
  lookup_dn (mo_dn mo) db = Some r →
  (remove_mo mo ;;; commit) (Handle db [] cs) =
    (Handle (filter (fun r => mo_dn r ≠ mo_dn mo) db) []
            (cs ++ [CRemove mo; CCommit]), Ok tt).
Proof.
  intros Hl. unfold bind, remove_mo, commit, stage, record_call. simpl.
  rewrite Hl. simpl. by rewrite <- app_assoc.
Qed.

(** A write through [set_mo] and [commit] raises, if at all, the SDK's own
    exception. *)
Lemma set_mo_commit_no_operation_error mo h op msg :
  snd ((set_mo mo ;;; commit ;;; ret mo) h) ≠ Raise (UcsOperationError op msg).
Proof.
  unfold bind, set_mo, commit, ret. simpl.
  by destruct (apply_all _ _).
Qed.
End operations.

(** ** What every operation keeps *)

Section invariants.
Implicit Types (h : UcsHandle) (db : list ManagedObject) (cs : list call)
               (mo r : ManagedObject) (kw : kwargs) (name : string).

Lemma unique_paths_removed dn db :
  unique_paths db → unique_paths (filter (fun r => mo_dn r ≠ dn) db).
Proof.
  unfold unique_paths. intros Hnd. eapply sublist_NoDup; [exact Hnd|].
  apply fmap_sublist, sublist_filter.
Qed.

Lemma apply_staged_unique_paths db st db' :
  apply_staged db st = Some db' → unique_paths db → unique_paths db'.
Proof.
  destruct st as [mo [|]|mo|mo]; simpl.
  - destruct (lookup_dn _ _); intros [= <-]; apply unique_paths_upsert.
  - destruct (lookup_dn _ _); [done|].
    intros [= <-]; apply unique_paths_upsert.
  - intros [= <-]; apply unique_paths_upsert.
  - destruct (lookup_dn _ _); [|done].
    intros [= <-]; apply unique_paths_removed.
Qed.

Lemma apply_all_unique_paths sts db db' :
  apply_all db sts = Some db' → unique_paths db → unique_paths db'.
Proof.
  revert db. induction sts as [|st sts IH]; intros db; simpl.
  - by intros [= <-].
  - destruct (apply_staged db st) as [db1|] eqn:Hst; [|done].
    intros Hall Hnd. apply (IH db1 Hall).
    by eapply apply_staged_unique_paths.
Qed.

Lemma keeps_ret {A} (a : A) : keeps (ret a).
Proof. by intros h. Qed.

Lemma keeps_raise {A} e : keeps (@raise A e).
Proof. by intros h. Qed.

Lemma keeps_query_dn dn : keeps (query_dn dn).
Proof. by intros h. Qed.

Lemma keeps_commit : keeps commit.
Proof.
  intros h. unfold commit.
  destruct (apply_all (remote h) (commit_buf h)) as [db|] eqn:Hall; simpl.
  - split; [|done]. by eapply apply_all_unique_paths.
  - by split.
Qed.

Lemma keeps_auth_domain_get name caller : keeps (auth_domain_get name caller).
Proof. intros h. by rewrite auth_domain_get_eq. Qed.

(** A staged write followed by [commit]. *)
Lemma keeps_stage_commit {A} (m : Py unit) (k : Py A) :
  (∀ h, remote (m h).1 = remote h ∧ ∃ u, (m h).2 = Ok u) →
  keeps k →
  keeps (m ;;; commit ;;; k).
Proof.
  intros Hm Hk h. unfold bind.
  destruct (Hm h) as [Hr [u Hu]].
  destruct (m h) as [h1 r1] eqn:Hmh. simpl in *. subst r1.
  pose proof (keeps_commit h1) as [Hc1 Hc2].
  assert (idle (commit h1).1) as Hidle.
  { unfold commit. by destruct (apply_all _ _). }
  destruct (commit h1) as [h2 [[]|e]] eqn:Hch; simpl in *.
  - destruct (Hk h2) as [Hk1 Hk2]. split.
    + intros Hnd. apply Hk1, Hc1. by rewrite Hr.
    + intros _. by apply Hk2.
  - split; [|done]. intros Hnd. apply Hc1. by rewrite Hr.
Qed.

Lemma keeps_bind_get {A} name caller (k : ManagedObject → Py A) :
  (∀ mo, keeps (k mo)) → keeps (mo <~ auth_domain_get name caller ;; k mo).
Proof.
  intros Hk h. unfold bind. rewrite auth_domain_get_eq.
  destruct (lookup_dn _ _) as [r|]; [|done].
  exact (Hk r (record_call (CQuery (domain_dn name)) h)).
Qed.

Lemma add_mo_stages mo b h :
  remote (add_mo mo b h).1 = remote h ∧ ∃ u, (add_mo mo b h).2 = Ok u.
Proof. split; [done|by exists tt]. Qed.

Lemma set_mo_stages mo h :
  remote (set_mo mo h).1 = remote h ∧ ∃ u, (set_mo mo h).2 = Ok u.
Proof. split; [done|by exists tt]. Qed.

Lemma remove_mo_stages mo h :
  remote (remove_mo mo h).1 = remote h ∧ ∃ u, (remove_mo mo h).2 = Ok u.
Proof. split; [done|by exists tt]. Qed.

Lemma keeps_commit_unit : keeps (commit ;;; ret tt).
Proof.
  intros h. unfold bind. pose proof (keeps_commit h) as Hc.
  by destruct (commit h) as [h' [[]|e]].
Qed.

(** Every operation of the module keeps paths unique and leaves a handle
    at rest at rest, whether it returns or raises. *)
Theorem operations_keep_handle :
  (∀ name rp st descr kw, keeps (auth_domain_create name rp st descr kw)) ∧
  (∀ name kw, keeps (auth_domain_exists name kw)) ∧
  (∀ name kw, keeps (auth_domain_modify name kw)) ∧
  (∀ name, keeps (auth_domain_delete name)) ∧
  (∀ name realm b pg nm descr kw,
     keeps (auth_domain_realm_configure name realm b pg nm descr kw)) ∧
  (∀ a b c d kw, keeps (native_auth_configure a b c d kw)) ∧
  (∀ a b c d e f kw, keeps (native_auth_default a b c d e f kw)) ∧
  (∀ a b c d kw, keeps (native_auth_console a b c d kw)).
Proof.
  split_and!; intros.
  - apply keeps_stage_commit; [apply add_mo_stages|apply keeps_ret].
  - intros h. unfold auth_domain_exists, try_except_operation_error.
    rewrite auth_domain_get_eq. by destruct (lookup_dn _ _).
  - apply keeps_bind_get. intros mo.
    apply keeps_stage_commit; [apply set_mo_stages|apply keeps_ret].
  - apply keeps_bind_get. intros mo h.
    pose proof (keeps_stage_commit (remove_mo mo) (ret tt)
                  (remove_mo_stages mo) (keeps_ret tt) h) as Hk.
    unfold bind in *. destruct (remove_mo mo h) as [h1 [[]|e]]; [|done].
    by destruct (commit h1) as [h2 [[]|e]].
  - apply keeps_bind_get. intros mo.
    apply keeps_stage_commit; [apply set_mo_stages|apply keeps_ret].
  - apply keeps_stage_commit; [apply set_mo_stages|apply keeps_ret].
  - apply keeps_stage_commit; [apply set_mo_stages|apply keeps_ret].
  - apply keeps_stage_commit; [apply set_mo_stages|apply keeps_ret].
Qed.

(** [add_mo] without [modify_present] is rejected by the remote system
    when the path is taken; nothing is applied and the exception is the
    SDK's own. *)
Lemma add_mo_present_rejected db cs mo r :
  lookup_dn (mo_dn mo) db = Some r →
  (add_mo mo false ;;; commit) (Handle db [] cs) =
    (Handle db [] (cs ++ [CAdd mo false; CCommit]),
     Raise (UcsException "commit rejected")).
Proof.
  intros Hl. unfold bind, add_mo, commit, stage, record_call. simpl.
  rewrite Hl. simpl. by rewrite <- app_assoc.
Qed.

(** The examples of the specification on the sample tree. *)
Example exists_when_field_differs :
  (auth_domain_exists "d1" {[ "session_timeout" := PStr "1000" ]}
     sample_handle).2 = Ok (false, None).
Proof. vm_compute. reflexivity. Qed.

Example exists_when_field_matches :
  (auth_domain_exists "d1" {[ "session_timeout" := PStr "7200" ]}
     sample_handle).2 = Ok (true, Some sample_domain).
Proof. vm_compute. reflexivity. Qed.

Example exists_after_modify :
  (auth_domain_exists "d1" {[ "session_timeout" := PStr "1000" ]}
     (auth_domain_modify "d1" {[ "session_timeout" := PStr "1000" ]}
        sample_handle).1).2 =
    Ok (true,
        Some (setattr sample_domain "session_timeout" (PStr "1000"))).
Proof. vm_compute. reflexivity. Qed.

Example exists_missing_domain :
  (auth_domain_exists "missing-domain" ∅ sample_handle).2 = Ok (false, None).
Proof. vm_compute. reflexivity. Qed.
End invariants.

(** ** Auth domains: create *)

Section auth_domain_create.
Implicit Types (h : UcsHandle) (db : list ManagedObject) (cs : list call)
               (mo r : ManagedObject) (kw : kwargs) (name : string).

Lemma AaaDomain_dn name kw0 :
  mo_dn (AaaDomain _auth_realm_dn name kw0) = domain_dn name.
Proof. unfold AaaDomain. by rewrite set_prop_multiple_dn. Qed.

Lemma AaaDomain_class parent name kw0 :
  mo_class (AaaDomain parent name kw0) = "AaaDomain".
Proof. unfold AaaDomain. by rewrite set_prop_multiple_class. Qed.

(** The property [k] of the record a store holds at a path after [mo] was
    written there, when [mo] provides a value for [k]. *)
Lemma getattr_upserted_Some mo db k v :
  mo_props mo !! k = Some v → getattr (upserted mo db) k = v.
Proof. intros Hk. by rewrite getattr_upserted, Hk. Qed.

Lemma getattr_upserted_None mo db k :
  mo_props mo !! k = None →
  getattr (upserted mo db) k = remote_field (mo_dn mo) k db.
Proof. intros Hk. by rewrite getattr_upserted, Hk. Qed.

(** C1: [auth_domain_create] with no overrides builds the AaaDomain record
    at [sys/auth-realm/domain-<name>] with refresh period "600" and session
    timeout "7200", submits it through [add_mo] with [modify_present=True],
    commits and returns it; [auth_domain_get] right afterwards returns a
    record with these two values. *)
Theorem auth_domain_create_defaults_then_get h name caller :
  idle h →
  ∃ mo h1 mo' h2,
    auth_domain_create name default_refresh_period default_session_timeout
      PNone ∅ h = (h1, Ok mo) ∧
    mo_class mo = "AaaDomain" ∧
    mo_dn mo = "sys/auth-realm/domain-" +:+ name ∧
    getattr mo "name" = PStr name ∧
    getattr mo "refresh_period" = PStr "600" ∧
    getattr mo "session_timeout" = PStr "7200" ∧
    calls h1 = calls h ++ [CAdd mo true; CCommit] ∧
    idle h1 ∧
    auth_domain_get name caller h1 = (h2, Ok mo') ∧
    mo_dn mo' = "sys/auth-realm/domain-" +:+ name ∧
    getattr mo' "refresh_period" = PStr "600" ∧
    getattr mo' "session_timeout" = PStr "7200".
Proof.
  destruct h as [db buf cs]. unfold idle. simpl. intros ->.
  unfold auth_domain_create. cbv zeta. rewrite add_mo_commit.
  rewrite set_prop_multiple_empty.
  set (mo := AaaDomain _auth_realm_dn name _).
  assert (Hdn : mo_dn mo = domain_dn name) by apply AaaDomain_dn.
  assert (Hcl : mo_class mo = "AaaDomain") by apply AaaDomain_class.
  assert (Hrp : mo_props mo !! "refresh_period" = Some (PStr "600")).
  { unfold mo, AaaDomain. apply props_set_prop_multiple_Some; [|discriminate].
    vm_compute. reflexivity. }
  assert (Hst : mo_props mo !! "session_timeout" = Some (PStr "7200")).
  { unfold mo, AaaDomain. apply props_set_prop_multiple_Some; [|discriminate].
    vm_compute; reflexivity. }
  assert (Hnm : getattr mo "name" = PStr name).
  { unfold mo, AaaDomain.
    rewrite getattr_set_prop_multiple_keep; [reflexivity|].
    left. vm_compute. reflexivity. }
  clearbody mo.
  exists mo, (Handle (upsert mo db) [] (cs ++ [CAdd mo true; CCommit])),
         (upserted mo db).
  eexists. split_and!.
  - reflexivity.
  - exact Hcl.
  - exact Hdn.
  - exact Hnm.
  - by apply getattr_lookup.
  - by apply getattr_lookup.
  - reflexivity.
  - reflexivity.
  - rewrite auth_domain_get_eq. simpl.
    by rewrite <- Hdn, lookup_dn_upsert.
  - by rewrite upserted_dn.
  - by apply getattr_upserted_Some.
  - by apply getattr_upserted_Some.
Qed.

Lemma auth_domain_create_defaults_then_get_witness :
  ∃ mo h1 mo' h2,
    auth_domain_create "d1" default_refresh_period default_session_timeout
      PNone ∅ (Handle [] [] []) = (h1, Ok mo) ∧
    mo_class mo = "AaaDomain" ∧
    mo_dn mo = "sys/auth-realm/domain-d1" ∧
    getattr mo "name" = PStr "d1" ∧
    getattr mo "refresh_period" = PStr "600" ∧
    getattr mo "session_timeout" = PStr "7200" ∧
    calls h1 = [CAdd mo true; CCommit] ∧
    idle h1 ∧
    auth_domain_get "d1" "auth_domain_get" h1 = (h2, Ok mo') ∧
    mo_dn mo' = "sys/auth-realm/domain-d1" ∧
    getattr mo' "refresh_period" = PStr "600" ∧
    getattr mo' "session_timeout" = PStr "7200".
Proof.
  apply (auth_domain_create_defaults_then_get (Handle [] [] []) "d1"
           "auth_domain_get").
  reflexivity.
Defined.

(** C2: creating the same auth domain twice in succession with a session
    timeout leaves exactly one record at the domain's path, holding that
    session timeout; the second call succeeds and changes nothing. *)
Theorem auth_domain_create_twice h name rp st descr :
  idle h → unique_paths (remote h) → st ≠ PNone →
  ∃ mo h1 h2 r,
    auth_domain_create name rp st descr ∅ h = (h1, Ok mo) ∧
    auth_domain_create name rp st descr ∅ h1 = (h2, Ok mo) ∧
    count_dn ("sys/auth-realm/domain-" +:+ name) (remote h2) = 1%nat ∧
    lookup_dn ("sys/auth-realm/domain-" +:+ name) (remote h2) = Some r ∧
    getattr r "session_timeout" = st ∧
    remote h2 = remote h1 ∧
    unique_paths (remote h2).
Proof.
  destruct h as [db buf cs]. unfold idle. simpl. intros -> Hnd Hst.
  unfold auth_domain_create. cbv zeta. rewrite !add_mo_commit.
  rewrite set_prop_multiple_empty.
  set (mo := AaaDomain _auth_realm_dn name _).
  assert (Hdn : mo_dn mo = domain_dn name) by apply AaaDomain_dn.
  assert (Hv : mo_props mo !! "session_timeout" = Some st).
  { unfold mo, AaaDomain. apply props_set_prop_multiple_Some; [|exact Hst].
    vm_compute. reflexivity. }
  clearbody mo.
  exists mo, (Handle (upsert mo db) [] (cs ++ [CAdd mo true; CCommit])),
         (Handle (upsert mo (upsert mo db)) []
                 ((cs ++ [CAdd mo true; CCommit]) ++ [CAdd mo true; CCommit])),
         (upserted mo db).
  unfold domain_dn in Hdn. cbn [remote]. rewrite upsert_idemp. split_and!.
  - reflexivity.
  - by rewrite add_mo_commit, upsert_idemp.
  - rewrite <- Hdn. by apply count_dn_upsert_unique.
  - by rewrite <- Hdn, lookup_dn_upsert.
  - by apply getattr_upserted_Some.
  - reflexivity.
  - by apply unique_paths_upsert.
Qed.

Lemma auth_domain_create_twice_witness :
  ∃ mo h1 h2 r,
    auth_domain_create "d1" default_refresh_period (PInt 1000) PNone ∅
      (Handle [] [] []) = (h1, Ok mo) ∧
    auth_domain_create "d1" default_refresh_period (PInt 1000) PNone ∅ h1
      = (h2, Ok mo) ∧
    count_dn "sys/auth-realm/domain-d1" (remote h2) = 1%nat ∧
    lookup_dn "sys/auth-realm/domain-d1" (remote h2) = Some r ∧
    getattr r "session_timeout" = PInt 1000 ∧
    remote h2 = remote h1 ∧
    unique_paths (remote h2).
Proof.
  apply (auth_domain_create_twice (Handle [] [] []) "d1"
           default_refresh_period (PInt 1000) PNone).
  - reflexivity.
  - apply NoDup_nil_2.
  - discriminate.
Defined.
End auth_domain_create.

(** ** Auth domains: lookup, existence, modify, delete *)

Section auth_domain_lookup.
Implicit Types (h : UcsHandle) (db : list ManagedObject) (cs : list call)
               (mo r : ManagedObject) (kw : kwargs) (name : string).

(** C4: for a name that holds no record, [auth_domain_get] raises
    [UcsOperationError]; the error names the calling operation and its
    message carries the resolved path.  The handle has only seen the
    query: nothing was staged, nothing committed, the remote tree is as it
    was.  Every operation that looks a domain up passes its own name. *)
Theorem auth_domain_get_missing h name caller :
  lookup_dn ("sys/auth-realm/domain-" +:+ name) (remote h) = None →
  ∃ h',
    auth_domain_get name caller h =
      (h', Raise (UcsOperationError caller
                    ("Auth Domain 'sys/auth-realm/domain-" +:+ name +:+
                     "' does not exist"))) ∧
    remote h' = remote h ∧
    commit_buf h' = commit_buf h ∧
    calls h' = calls h ++ [CQuery ("sys/auth-realm/domain-" +:+ name)] ∧
    (∀ kw, ∃ msg,
       auth_domain_modify name kw h =
         (h', Raise (UcsOperationError "auth_domain_modify" msg))) ∧
    (∃ msg,
       auth_domain_delete name h =
         (h', Raise (UcsOperationError "auth_domain_delete" msg))) ∧
    (∀ realm use2_factor provider_group nm descr kw, ∃ msg,
       auth_domain_realm_configure name realm use2_factor provider_group
         nm descr kw h =
         (h', Raise (UcsOperationError "auth_domain_realm_configure" msg))).
Proof.
  intros Hl. exists (record_call (CQuery (domain_dn name)) h).
  split_and!.
  - by rewrite auth_domain_get_missing_eq.
  - reflexivity.
  - reflexivity.
  - reflexivity.
  - intros kw. eexists. unfold auth_domain_modify.
    apply bind_raise. by apply auth_domain_get_missing_eq.
  - eexists. unfold auth_domain_delete.
    apply bind_raise. by apply auth_domain_get_missing_eq.
  - intros. eexists. unfold auth_domain_realm_configure.
    apply bind_raise. by apply auth_domain_get_missing_eq.
Qed.

Lemma auth_domain_get_missing_witness :
  ∃ h',
    auth_domain_get "d1" "auth_domain_get" (Handle [] [] []) =
      (h', Raise (UcsOperationError "auth_domain_get"
                    "Auth Domain 'sys/auth-realm/domain-d1' does not exist")) ∧
    remote h' = [] ∧
    commit_buf h' = [] ∧
    calls h' = [CQuery "sys/auth-realm/domain-d1"] ∧
    (∀ kw, ∃ msg,
       auth_domain_modify "d1" kw (Handle [] [] []) =
         (h', Raise (UcsOperationError "auth_domain_modify" msg))) ∧
    (∃ msg,
       auth_domain_delete "d1" (Handle [] [] []) =
         (h', Raise (UcsOperationError "auth_domain_delete" msg))) ∧
    (∀ realm use2_factor provider_group nm descr kw, ∃ msg,
       auth_domain_realm_configure "d1" realm use2_factor provider_group
         nm descr kw (Handle [] [] []) =
         (h', Raise (UcsOperationError "auth_domain_realm_configure" msg))).
Proof.
  apply (auth_domain_get_missing (Handle [] [] []) "d1" "auth_domain_get").
  reflexivity.
Defined.

(** C5: [auth_domain_exists] answers [(True, record)] exactly when the
    path holds a record and every key of the expected properties matches
    the record's field; otherwise, the record being absent or some field
    differing, it answers [(False, None)].  It never raises, and the handle
    has only seen the query. *)
Theorem auth_domain_exists_spec h name kw :
  ∃ h' answer,
    auth_domain_exists name kw h = (h', Ok answer) ∧
    remote h' = remote h ∧
    commit_buf h' = commit_buf h ∧
    calls h' = calls h ++ [CQuery ("sys/auth-realm/domain-" +:+ name)] ∧
    (∀ mo,
       answer = (true, Some mo) ↔
       lookup_dn ("sys/auth-realm/domain-" +:+ name) (remote h) = Some mo ∧
       matches mo kw) ∧
    (answer = (false, None) ↔
       ¬ ∃ mo,
           lookup_dn ("sys/auth-realm/domain-" +:+ name) (remote h) = Some mo ∧
           matches mo kw).
Proof.
  exists (record_call (CQuery (domain_dn name)) h).
  unfold auth_domain_exists, try_except_operation_error.
  rewrite auth_domain_get_eq. fold (domain_dn name).
  destruct (lookup_dn (domain_dn name) (remote h)) as [r|] eqn:Hl.
  - cbn beta iota. unfold ret.
    destruct (check_prop_match r kw) eqn:Hm.
    + eexists. split_and!; try reflexivity.
      * intros mo. split.
        -- intros [= <-]. split; [done|]. by apply check_prop_match_spec.
        -- intros [[= <-] _]. done.
      * split; [done|]. intros Hno. exfalso. apply Hno. exists r.
        split; [done|]. by apply check_prop_match_spec.
    + eexists. split_and!; try reflexivity.
      * intros mo. split; [done|].
        intros [[= <-] Hall]. apply check_prop_match_spec in Hall. congruence.
      * split; [|done]. intros _ (mo & [= <-] & Hall).
        apply check_prop_match_spec in Hall. congruence.
  - cbn beta iota. unfold ret. eexists. split_and!; try reflexivity.
    + intros mo. split; [done|]. by intros [? _].
    + split; [|done]. by intros _ (mo & ? & _).
Qed.

(** C3: [auth_domain_modify] needs the record.  For a name that holds no
    record it raises [UcsOperationError] out of the lookup, and no record
    has been created: the handle has only seen the query.  When the record
    exists the extra properties are applied onto the fetched record, the
    record is submitted through [set_mo], committed and returned; it is the
    record the remote tree then holds. *)
Theorem auth_domain_modify_spec h name kw :
  idle h →
  match lookup_dn ("sys/auth-realm/domain-" +:+ name) (remote h) with
  | None =>
      ∃ h',
        auth_domain_modify name kw h =
          (h', Raise (UcsOperationError "auth_domain_modify"
                        ("Auth Domain 'sys/auth-realm/domain-" +:+ name +:+
                         "' does not exist"))) ∧
        remote h' = remote h ∧
        commit_buf h' = commit_buf h ∧
        calls h' = calls h ++ [CQuery ("sys/auth-realm/domain-" +:+ name)] ∧
        lookup_dn ("sys/auth-realm/domain-" +:+ name) (remote h') = None
  | Some r =>
      ∃ h' mo,
        auth_domain_modify name kw h = (h', Ok mo) ∧
        mo = set_prop_multiple r kw ∧
        mo_dn mo = "sys/auth-realm/domain-" +:+ name ∧
        (∀ k v, kw !! k = Some v → v ≠ PNone → getattr mo k = v) ∧
        (∀ k, kw !! k = None → getattr mo k = getattr r k) ∧
        calls h' =
          calls h ++ [CQuery ("sys/auth-realm/domain-" +:+ name);
                      CSet mo; CCommit] ∧
        idle h' ∧
        lookup_dn ("sys/auth-realm/domain-" +:+ name) (remote h') = Some mo
  end.
Proof.
  destruct h as [db buf cs]. unfold idle. cbn [commit_buf remote calls].
  intros ->. fold (domain_dn name).
  destruct (lookup_dn (domain_dn name) db) as [r|] eqn:Hl.
  - pose proof (lookup_dn_Some _ _ _ Hl) as [Hdn _].
    exists (Handle (upsert (set_prop_multiple r kw) db) []
              ((cs ++ [CQuery (domain_dn name)]) ++
               [CSet (set_prop_multiple r kw); CCommit])),
           (set_prop_multiple r kw).
    split_and!.
    + unfold auth_domain_modify.
      rewrite (bind_ok _ _ _ _ _ (auth_domain_get_found_eq name _ (Handle db [] cs) r Hl)).
      cbv zeta. unfold record_call. cbn [commit_buf remote calls].
      by rewrite set_mo_commit.
    + reflexivity.
    + by rewrite set_prop_multiple_dn.
    + intros k v Hk Hv. by apply getattr_set_prop_multiple_Some.
    + intros k Hk. apply getattr_set_prop_multiple_keep. by left.
    + cbn [calls]. by rewrite <- app_assoc.
    + reflexivity.
    + cbn [remote]. rewrite <- Hdn at 1.
      rewrite <- (set_prop_multiple_dn r kw) at 1.
      rewrite lookup_dn_upsert. f_equal.
      apply upserted_set_prop_multiple. by rewrite Hdn.
  - exists (record_call (CQuery (domain_dn name)) (Handle db [] cs)).
    split_and!; try reflexivity.
    + unfold auth_domain_modify. apply bind_raise.
      by apply auth_domain_get_missing_eq.
    + exact Hl.
Qed.

Lemma auth_domain_modify_spec_witness :
  (idle (Handle [] [] []) ∧
   ∃ h',
     auth_domain_modify "missing-domain"
       {[ "session_timeout" := PStr "1000" ]} (Handle [] [] []) =
       (h', Raise (UcsOperationError "auth_domain_modify"
                     "Auth Domain 'sys/auth-realm/domain-missing-domain' does not exist")) ∧
     remote h' = [] ∧
     commit_buf h' = [] ∧
     calls h' = [CQuery "sys/auth-realm/domain-missing-domain"] ∧
     lookup_dn "sys/auth-realm/domain-missing-domain" (remote h') = None) ∧
  (idle sample_handle ∧
   ∃ h' mo,
     auth_domain_modify "d1" {[ "session_timeout" := PStr "1000" ]}
       sample_handle = (h', Ok mo) ∧
     mo = set_prop_multiple sample_domain
            {[ "session_timeout" := PStr "1000" ]} ∧
     mo_dn mo = "sys/auth-realm/domain-d1" ∧
     (∀ k v, ({[ "session_timeout" := PStr "1000" ]} : kwargs) !! k = Some v →
             v ≠ PNone → getattr mo k = v) ∧
     (∀ k, ({[ "session_timeout" := PStr "1000" ]} : kwargs) !! k = None →
           getattr mo k = getattr sample_domain k) ∧
     calls h' = [CQuery "sys/auth-realm/domain-d1"; CSet mo; CCommit] ∧
     idle h' ∧
     lookup_dn "sys/auth-realm/domain-d1" (remote h') = Some mo).
Proof.
  split; (split; [reflexivity|]).
  - exact (auth_domain_modify_spec (Handle [] [] []) "missing-domain"
             {[ "session_timeout" := PStr "1000" ]} eq_refl).
  - exact (auth_domain_modify_spec sample_handle "d1"
             {[ "session_timeout" := PStr "1000" ]} eq_refl).
Defined.

(** C6: [auth_domain_delete] raises [UcsOperationError] for a name that
    holds no record.  When the record exists it is submitted through
    [remove_mo] and committed, nothing is returned, and [auth_domain_get]
    right afterwards raises [UcsOperationError]; other paths are as they
    were. *)
Theorem auth_domain_delete_spec h name caller :
  idle h →
  match lookup_dn ("sys/auth-realm/domain-" +:+ name) (remote h) with
  | None =>
      ∃ h',
        auth_domain_delete name h =
          (h', Raise (UcsOperationError "auth_domain_delete"
                        ("Auth Domain 'sys/auth-realm/domain-" +:+ name +:+
                         "' does not exist"))) ∧
        remote h' = remote h ∧
        commit_buf h' = commit_buf h
  | Some r =>
      ∃ h' h'',
        auth_domain_delete name h = (h', Ok tt) ∧
        calls h' =
          calls h ++ [CQuery ("sys/auth-realm/domain-" +:+ name);
                      CRemove r; CCommit] ∧
        idle h' ∧
        lookup_dn ("sys/auth-realm/domain-" +:+ name) (remote h') = None ∧
        (∀ dn, dn ≠ "sys/auth-realm/domain-" +:+ name →
               lookup_dn dn (remote h') = lookup_dn dn (remote h)) ∧
        auth_domain_get name caller h' =
          (h'', Raise (UcsOperationError caller
                         ("Auth Domain 'sys/auth-realm/domain-" +:+ name +:+
                          "' does not exist")))
  end.
Proof.
  destruct h as [db buf cs]. unfold idle. cbn [commit_buf remote calls].
  intros ->. fold (domain_dn name).
  destruct (lookup_dn (domain_dn name) db) as [r|] eqn:Hl.
  - pose proof (lookup_dn_Some _ _ _ Hl) as [Hdn _].
    exists (Handle (filter (fun r' => mo_dn r' ≠ mo_dn r) db) []
              ((cs ++ [CQuery (domain_dn name)]) ++ [CRemove r; CCommit])).
    eexists. split_and!.
    + unfold auth_domain_delete.
      rewrite (bind_ok _ _ _ _ _ (auth_domain_get_found_eq name _ (Handle db [] cs) r Hl)).
      unfold record_call. cbn [commit_buf remote calls].
      apply (remove_mo_commit _ _ _ r). by rewrite Hdn.
    + cbn [calls]. by rewrite <- app_assoc.
    + reflexivity.
    + cbn [remote]. rewrite Hdn. apply lookup_dn_removed.
    + intros dn Hne. cbn [remote]. rewrite Hdn.
      by apply lookup_dn_removed_ne.
    + apply auth_domain_get_missing_eq. cbn [remote]. rewrite Hdn.
      apply lookup_dn_removed.
  - exists (record_call (CQuery (domain_dn name)) (Handle db [] cs)).
    split_and!; try reflexivity.
    unfold auth_domain_delete. apply bind_raise.
    by apply auth_domain_get_missing_eq.
Qed.

Lemma auth_domain_delete_spec_witness :
  (idle (Handle [] [] []) ∧
   ∃ h',
     auth_domain_delete "d1" (Handle [] [] []) =
       (h', Raise (UcsOperationError "auth_domain_delete"
                     "Auth Domain 'sys/auth-realm/domain-d1' does not exist")) ∧
     remote h' = [] ∧
     commit_buf h' = []) ∧
  (idle sample_handle ∧
   ∃ h' h'',
     auth_domain_delete "d1" sample_handle = (h', Ok tt) ∧
     calls h' = [CQuery "sys/auth-realm/domain-d1"; CRemove sample_domain;
                 CCommit] ∧
     idle h' ∧
     lookup_dn "sys/auth-realm/domain-d1" (remote h') = None ∧
     (∀ dn, dn ≠ "sys/auth-realm/domain-d1" →
            lookup_dn dn (remote h') = lookup_dn dn (remote sample_handle)) ∧
     auth_domain_get "d1" "auth_domain_get" h' =
       (h'', Raise (UcsOperationError "auth_domain_get"
                      "Auth Domain 'sys/auth-realm/domain-d1' does not exist"))).
Proof.
  split; (split; [reflexivity|]).
  - exact (auth_domain_delete_spec (Handle [] [] []) "d1" "auth_domain_get"
             eq_refl).
  - exact (auth_domain_delete_spec sample_handle "d1" "auth_domain_get"
             eq_refl).
Defined.

(** C7: for a domain name that holds no record,
    [auth_domain_realm_configure] raises [UcsOperationError]; the lookup
    comes before any write, so no child record has been submitted, nothing
    was committed and the remote tree is as it was. *)
Theorem auth_domain_realm_configure_missing
    h name realm use2_factor provider_group nm descr kw :
  lookup_dn ("sys/auth-realm/domain-" +:+ name) (remote h) = None →
  ∃ h',
    auth_domain_realm_configure name realm use2_factor provider_group nm
      descr kw h =
      (h', Raise (UcsOperationError "auth_domain_realm_configure"
                    ("Auth Domain 'sys/auth-realm/domain-" +:+ name +:+
                     "' does not exist"))) ∧
    remote h' = remote h ∧
    commit_buf h' = commit_buf h ∧
    calls h' = calls h ++ [CQuery ("sys/auth-realm/domain-" +:+ name)].
Proof.
  intros Hl. exists (record_call (CQuery (domain_dn name)) h).
  split_and!; try reflexivity.
  unfold auth_domain_realm_configure. apply bind_raise.
  by apply auth_domain_get_missing_eq.
Qed.

Lemma auth_domain_realm_configure_missing_witness :
  lookup_dn "sys/auth-realm/domain-missing-domain" (remote sample_handle)
    = None ∧
  ∃ h',
    auth_domain_realm_configure "missing-domain" default_realm false PNone
      PNone PNone ∅ sample_handle =
      (h', Raise (UcsOperationError "auth_domain_realm_configure"
                    "Auth Domain 'sys/auth-realm/domain-missing-domain' does not exist")) ∧
    remote h' = remote sample_handle ∧
    commit_buf h' = commit_buf sample_handle ∧
    calls h' = [CQuery "sys/auth-realm/domain-missing-domain"].
Proof.
  split; [reflexivity|].
  exact (auth_domain_realm_configure_missing sample_handle "missing-domain"
           default_realm false PNone PNone PNone ∅ eq_refl).
Defined.
End auth_domain_lookup.

(** ** Realm of an auth domain, native authentication *)

Section realm_and_native.
Implicit Types (h : UcsHandle) (db : list ManagedObject) (cs : list call)
               (mo r : ManagedObject) (kw : kwargs) (name : string).

(** C8: when the parent domain exists, [auth_domain_realm_configure] submits
    a record whose [use2_factor] property is the string "yes" for [True] and
    "no" for [False], never the boolean itself. *)
Theorem auth_domain_realm_configure_use2_factor
    h name obj realm (use2_factor : bool) provider_group nm descr kw :
  idle h →
  lookup_dn ("sys/auth-realm/domain-" +:+ name) (remote h) = Some obj →
  kw !! "use2_factor" = None →
  ∃ h' mo r,
    auth_domain_realm_configure name realm use2_factor provider_group nm
      descr kw h = (h', Ok mo) ∧
    mo_class mo = "AaaDomainAuth" ∧
    mo_dn mo = "sys/auth-realm/domain-" +:+ name +:+ "/domain-auth" ∧
    calls h' =
      calls h ++ [CQuery ("sys/auth-realm/domain-" +:+ name);
                  CSet mo; CCommit] ∧
    getattr mo "use2_factor" = PStr (if use2_factor then "yes" else "no") ∧
    getattr mo "use2_factor" ≠ PBool use2_factor ∧
    lookup_dn (mo_dn mo) (remote h') = Some r ∧
    getattr r "use2_factor" = PStr (if use2_factor then "yes" else "no").
Proof.
  destruct h as [db buf cs]. unfold idle. cbn [commit_buf remote calls].
  intros -> Hl Hkw. fold (domain_dn name) in *.
  pose proof (lookup_dn_Some _ _ _ Hl) as [Hdn _].
  unfold auth_domain_realm_configure.
  rewrite (bind_ok _ _ _ _ _
             (auth_domain_get_found_eq name _ (Handle db [] cs) obj Hl)).
  cbv zeta. unfold record_call. cbn [commit_buf remote calls].
  rewrite set_mo_commit.
  set (mo := set_prop_multiple (AaaDomainAuth _ _) kw).
  assert (Hcl : mo_class mo = "AaaDomainAuth").
  { unfold mo, AaaDomainAuth. by rewrite !set_prop_multiple_class. }
  assert (Hmdn : mo_dn mo = domain_dn name +:+ "/domain-auth").
  { unfold mo, AaaDomainAuth. by rewrite !set_prop_multiple_dn, Hdn. }
  assert (Hu : mo_props mo !! "use2_factor" =
               Some (PStr (if use2_factor then "yes" else "no"))).
  { unfold mo. rewrite props_set_prop_multiple_keep by (by left).
    unfold AaaDomainAuth. apply props_set_prop_multiple_Some; [|discriminate].
    vm_compute. reflexivity. }
  clearbody mo.
  exists (Handle (upsert mo db) []
            ((cs ++ [CQuery (domain_dn name)]) ++ [CSet mo; CCommit])),
         mo, (upserted mo db).
  split_and!.
  - reflexivity.
  - exact Hcl.
  - rewrite Hmdn. reflexivity.
  - cbn [calls]. by rewrite <- app_assoc.
  - by apply getattr_lookup.
  - rewrite (getattr_lookup _ _ _ Hu). discriminate.
  - cbn [remote]. apply lookup_dn_upsert.
  - by apply getattr_upserted_Some.
Qed.

Lemma auth_domain_realm_configure_use2_factor_witness :
  idle sample_handle ∧
  lookup_dn "sys/auth-realm/domain-d1" (remote sample_handle)
    = Some sample_domain ∧
  (∅ : kwargs) !! "use2_factor" = None ∧
  ∃ h' mo r,
    auth_domain_realm_configure "d1" default_realm true PNone PNone PNone ∅
      sample_handle = (h', Ok mo) ∧
    mo_class mo = "AaaDomainAuth" ∧
    mo_dn mo = "sys/auth-realm/domain-d1/domain-auth" ∧
    calls h' = [CQuery "sys/auth-realm/domain-d1"; CSet mo; CCommit] ∧
    getattr mo "use2_factor" = PStr "yes" ∧
    getattr mo "use2_factor" ≠ PBool true ∧
    lookup_dn (mo_dn mo) (remote h') = Some r ∧
    getattr r "use2_factor" = PStr "yes".
Proof.
  split_and!; [reflexivity..|].
  exact (auth_domain_realm_configure_use2_factor sample_handle "d1"
           sample_domain default_realm true PNone PNone PNone ∅
           eq_refl eq_refl eq_refl).
Defined.

(** C9: [native_auth_configure] writes the record at [sys/auth-realm]
    without looking anything up: for every handle the calls it makes are
    [set_mo] of a freshly built record and [commit], and it never raises
    [UcsOperationError].  A named field is set when a value is provided; a
    field left at [None] is not part of the record and the remote value of
    that field stays as it was.  The extra properties are laid over the
    named ones before the record is submitted. *)
Theorem native_auth_configure_spec
    h def_role_policy def_login con_login descr kw :
  idle h →
  let args :=
    native_auth_configure_args def_role_policy def_login con_login descr in
  ∃ h' mo,
    native_auth_configure def_role_policy def_login con_login descr kw h
      = (h', Ok mo) ∧
    mo = set_prop_multiple
           (set_prop_multiple (MO "AaaAuthRealm" "sys/auth-realm" ∅) args) kw ∧
    mo_class mo = "AaaAuthRealm" ∧
    mo_dn mo = "sys/auth-realm" ∧
    calls h' = calls h ++ [CSet mo; CCommit] ∧
    idle h' ∧
    args !! "def_role_policy" = Some def_role_policy ∧
    args !! "def_login" = Some def_login ∧
    args !! "con_login" = Some con_login ∧
    args !! "descr" = Some descr ∧
    (∀ h0 : UcsHandle,
       calls (native_auth_configure def_role_policy def_login con_login
                descr kw h0).1 = calls h0 ++ [CSet mo; CCommit] ∧
       ∀ op msg,
         (native_auth_configure def_role_policy def_login con_login
            descr kw h0).2 ≠ Raise (UcsOperationError op msg)) ∧
    (∀ k v, args !! k = Some v → v ≠ PNone → kw !! k = None →
            getattr mo k = v ∧
            remote_field "sys/auth-realm" k (remote h') = v) ∧
    (∀ k, args !! k = Some PNone → kw !! k = None →
          mo_props mo !! k = None ∧
          remote_field "sys/auth-realm" k (remote h') =
            remote_field "sys/auth-realm" k (remote h)) ∧
    (∀ k v, kw !! k = Some v → v ≠ PNone →
            getattr mo k = v ∧
            remote_field "sys/auth-realm" k (remote h') = v).
Proof.
  destruct h as [db buf cs]. intros Hb args. unfold idle in *.
  cbn [commit_buf remote calls] in *. subst buf.
  unfold native_auth_configure. cbv zeta. fold args.
  unfold AaaAuthRealm. rewrite set_prop_multiple_empty.
  change ("sys" +:+ "/auth-realm") with "sys/auth-realm".
  set (mo := set_prop_multiple (set_prop_multiple _ args) kw).
  assert (Hcl : mo_class mo = "AaaAuthRealm").
  { unfold mo. by rewrite !set_prop_multiple_class. }
  assert (Hdn : mo_dn mo = "sys/auth-realm").
  { unfold mo. by rewrite !set_prop_multiple_dn. }
  assert (Hp : ∀ k, mo_props mo !! k = overlay (overlay None (args !! k))
                                               (kw !! k)).
  { intros k. unfold mo. rewrite !props_set_prop_multiple. cbn [mo_props].
    by rewrite lookup_empty. }
  assert (Hr : ∀ k, remote_field "sys/auth-realm" k (upsert mo db) =
                    match mo_props mo !! k with
                    | Some v => v
                    | None => remote_field "sys/auth-realm" k db
                    end).
  { intros k. unfold remote_field at 1. rewrite <- Hdn at 1.
    rewrite lookup_dn_upsert. cbn [from_option].
    rewrite getattr_upserted, Hdn. reflexivity. }
  exists (Handle (upsert mo db) [] (cs ++ [CSet mo; CCommit])), mo.
  split_and!.
  - apply set_mo_commit.
  - reflexivity.
  - exact Hcl.
  - exact Hdn.
  - reflexivity.
  - reflexivity.
  - unfold args, native_auth_configure_args. vm_compute. reflexivity.
  - unfold args, native_auth_configure_args. vm_compute. reflexivity.
  - unfold args, native_auth_configure_args. vm_compute. reflexivity.
  - unfold args, native_auth_configure_args. vm_compute. reflexivity.
  - intros h0. split.
    + unfold bind, set_mo, commit, stage, record_call, ret.
      cbn [commit_buf remote calls].
      destruct (apply_all _ _); cbn; by rewrite <- app_assoc.
    + intros op msg. apply set_mo_commit_no_operation_error.
  - intros k v Ha Hv Hk.
    assert (mo_props mo !! k = Some v) as Hm.
    { rewrite Hp, Ha, Hk. cbn. by rewrite decide_False. }
    split; [by apply getattr_lookup|].
    cbn [remote]. by rewrite Hr, Hm.
  - intros k Ha Hk.
    assert (mo_props mo !! k = None) as Hm.
    { by rewrite Hp, Ha, Hk. }
    split; [done|]. cbn [remote]. by rewrite Hr, Hm.
  - intros k v Hk Hv.
    assert (mo_props mo !! k = Some v) as Hm.
    { rewrite Hp, Hk. cbn. by rewrite decide_False. }
    split; [by apply getattr_lookup|].
    cbn [remote]. by rewrite Hr, Hm.
Qed.

Lemma native_auth_configure_spec_witness :
  idle sample_handle ∧
  let args :=
    native_auth_configure_args (PStr "assign-default-role") PNone
      (PStr "local") PNone in
  ∃ h' mo,
    native_auth_configure (PStr "assign-default-role") PNone (PStr "local")
      PNone ∅ sample_handle = (h', Ok mo) ∧
    mo = set_prop_multiple
           (set_prop_multiple (MO "AaaAuthRealm" "sys/auth-realm" ∅) args) ∅ ∧
    mo_class mo = "AaaAuthRealm" ∧
    mo_dn mo = "sys/auth-realm" ∧
    calls h' = calls sample_handle ++ [CSet mo; CCommit] ∧
    idle h' ∧
    args !! "def_role_policy" = Some (PStr "assign-default-role") ∧
    args !! "def_login" = Some PNone ∧
    args !! "con_login" = Some (PStr "local") ∧
    args !! "descr" = Some PNone ∧
    (∀ h0 : UcsHandle,
       calls (native_auth_configure (PStr "assign-default-role") PNone
                (PStr "local") PNone ∅ h0).1 = calls h0 ++ [CSet mo; CCommit] ∧
       ∀ op msg,
         (native_auth_configure (PStr "assign-default-role") PNone
            (PStr "local") PNone ∅ h0).2 ≠ Raise (UcsOperationError op msg)) ∧
    (∀ k v, args !! k = Some v → v ≠ PNone → (∅ : kwargs) !! k = None →
            getattr mo k = v ∧
            remote_field "sys/auth-realm" k (remote h') = v) ∧
    (∀ k, args !! k = Some PNone → (∅ : kwargs) !! k = None →
          mo_props mo !! k = None ∧
          remote_field "sys/auth-realm" k (remote h') =
            remote_field "sys/auth-realm" k (remote sample_handle)) ∧
    (∀ k v, (∅ : kwargs) !! k = Some v → v ≠ PNone →
            getattr mo k = v ∧
            remote_field "sys/auth-realm" k (remote h') = v).
Proof.
  split; [reflexivity|].
  exact (native_auth_configure_spec sample_handle (PStr "assign-default-role")
           PNone (PStr "local") PNone ∅ eq_refl).
Defined.
End realm_and_native.

(** ** The extra properties are applied last *)

Section extra_properties.
Implicit Types (h : UcsHandle) (db : list ManagedObject) (cs : list call)
               (mo r : ManagedObject) (kw : kwargs) (name : string).

Lemma remote_field_upsert mo db k v :
  mo_props mo !! k = Some v → remote_field (mo_dn mo) k (upsert mo db) = v.
Proof.
  intros Hk. unfold remote_field. rewrite lookup_dn_upsert. cbn [from_option].
  by apply getattr_upserted_Some.
Qed.





End extra_properties.

(** ** Behaviour on every handle *)

Section every_handle.
Implicit Types (h : UcsHandle) (db : list ManagedObject) (cs : list call)
               (mo r : ManagedObject) (kw : kwargs) (name : string).

Lemma domain_dn_inj name name' : domain_dn name = domain_dn name' → name = name'.
Proof. unfold domain_dn. apply (inj (String.append _)). Qed.

Lemma auth_domain_exists_eq name kw h :
  auth_domain_exists name kw h =
    (record_call (CQuery (domain_dn name)) h,
     Ok (match lookup_dn (domain_dn name) (remote h) with
         | Some mo =>
             if check_prop_match mo kw then (true, Some mo) else (false, None)
         | None => (false, None)
         end)).
Proof.
  unfold auth_domain_exists, try_except_operation_error.
  rewrite auth_domain_get_eq.
  destruct (lookup_dn (domain_dn name) (remote h)) as [r|]; [|done].
  unfold ret. by destruct (check_prop_match r kw).
Qed.

(** A staged write followed by [commit], on any handle: the buffer is
    emptied, the calls are the write and the commit, and the outcome is the
    value or the SDK's own exception. *)
Lemma write_commit_any {A} (w : Py unit) (c : call) (st : staged) (a : A) h :
  (∀ h0, w h0 = (stage st (record_call c h0), Ok tt)) →
  ∃ h' res,
    (w ;;; commit ;;; ret a) h = (h', res) ∧
    commit_buf h' = [] ∧
    calls h' = calls h ++ [c; CCommit] ∧
    (res = Ok a ∨ ∃ msg, res = Raise (UcsException msg)).
Proof.
  intros Hw. unfold bind. rewrite Hw. unfold commit, ret.
  cbn [stage record_call remote commit_buf calls].
  destruct (apply_all (remote h) (commit_buf h ++ [st])) as [db'|];
    do 2 eexists; (split_and!; [reflexivity|reflexivity| |]);
    cbn [calls]; rewrite <- ?app_assoc; eauto.
Qed.

Lemma add_mo_commit_any mo h :
  ∃ h' res,
    (add_mo mo true ;;; commit ;;; ret mo) h = (h', res) ∧
    commit_buf h' = [] ∧
    calls h' = calls h ++ [CAdd mo true; CCommit] ∧
    (res = Ok mo ∨ ∃ msg, res = Raise (UcsException msg)).
Proof. by apply (write_commit_any _ _ (StAdd mo true)). Qed.

Lemma set_mo_commit_any mo h :
  ∃ h' res,
    (set_mo mo ;;; commit ;;; ret mo) h = (h', res) ∧
    commit_buf h' = [] ∧
    calls h' = calls h ++ [CSet mo; CCommit] ∧
    (res = Ok mo ∨ ∃ msg, res = Raise (UcsException msg)).
Proof. by apply (write_commit_any _ _ (StSet mo)). Qed.

Lemma remove_mo_commit_any mo h :
  ∃ h' res,
    (remove_mo mo ;;; commit) h = (h', res) ∧
    commit_buf h' = [] ∧
    calls h' = calls h ++ [CRemove mo; CCommit] ∧
    (res = Ok tt ∨ ∃ msg, res = Raise (UcsException msg)).
Proof.
  unfold bind, remove_mo, commit.
  cbn [stage record_call remote commit_buf calls].
  destruct (apply_all (remote h) (commit_buf h ++ [StRemove mo])) as [db'|];
    do 2 eexists; (split_and!; [reflexivity|reflexivity| |]);
    cbn [calls]; rewrite <- ?app_assoc; eauto.
Qed.

Lemma auth_domain_create_any name rp st descr kw h :
  ∃ mo, wrote h (auth_domain_create name rp st descr kw h) []
          (CAdd mo true) mo.
Proof.
  unfold auth_domain_create. cbv zeta.
  set (mo := set_prop_multiple _ kw). clearbody mo. exists mo.
  destruct (add_mo_commit_any mo h) as (h' & res & -> & Hb & Hc & Hr).
  by split_and!.
Qed.

Lemma native_auth_configure_any a b c d kw h :
  ∃ mo, wrote h (native_auth_configure a b c d kw h) [] (CSet mo) mo.
Proof.
  unfold native_auth_configure. cbv zeta.
  set (mo := set_prop_multiple _ kw). clearbody mo. exists mo.
  destruct (set_mo_commit_any mo h) as (h' & res & -> & Hb & Hc & Hr).
  by split_and!.
Qed.

Lemma native_auth_default_any a b c d e f kw h :
  ∃ mo, wrote h (native_auth_default a b c d e f kw h) [] (CSet mo) mo.
Proof.
  unfold native_auth_default. cbv zeta.
  set (mo := set_prop_multiple _ kw). clearbody mo. exists mo.
  destruct (set_mo_commit_any mo h) as (h' & res & -> & Hb & Hc & Hr).
  by split_and!.
Qed.

Lemma native_auth_console_any a b c d kw h :
  ∃ mo, wrote h (native_auth_console a b c d kw h) [] (CSet mo) mo.
Proof.
  unfold native_auth_console. cbv zeta.
  set (mo := set_prop_multiple _ kw). clearbody mo. exists mo.
  destruct (set_mo_commit_any mo h) as (h' & res & -> & Hb & Hc & Hr).
  by split_and!.
Qed.

Lemma auth_domain_modify_any name kw h :
  match lookup_dn (domain_dn name) (remote h) with
  | None => not_found h (auth_domain_modify name kw h) name "auth_domain_modify"
  | Some r =>
      wrote h (auth_domain_modify name kw h) [CQuery (domain_dn name)]
        (CSet (set_prop_multiple r kw)) (set_prop_multiple r kw)
  end.
Proof.
  unfold auth_domain_modify.
  destruct (lookup_dn (domain_dn name) (remote h)) as [r|] eqn:Hl.
  - rewrite (bind_ok _ _ _ _ _ (auth_domain_get_found_eq name _ h r Hl)).
    cbv zeta.
    destruct (set_mo_commit_any (set_prop_multiple r kw)
                (record_call (CQuery (domain_dn name)) h))
      as (h' & res & -> & Hb & Hc & Hr).
    split_and!; [done| |done]. cbn [fst]. rewrite Hc. cbn [record_call calls].
    by rewrite <- app_assoc.
  - apply bind_raise. by apply auth_domain_get_missing_eq.
Qed.

Lemma auth_domain_delete_any name h :
  match lookup_dn (domain_dn name) (remote h) with
  | None => not_found h (auth_domain_delete name h) name "auth_domain_delete"
  | Some r =>
      wrote h (auth_domain_delete name h) [CQuery (domain_dn name)]
        (CRemove r) tt
  end.
Proof.
  unfold auth_domain_delete.
  destruct (lookup_dn (domain_dn name) (remote h)) as [r|] eqn:Hl.
  - rewrite (bind_ok _ _ _ _ _ (auth_domain_get_found_eq name _ h r Hl)).
    destruct (remove_mo_commit_any r
                (record_call (CQuery (domain_dn name)) h))
      as (h' & res & -> & Hb & Hc & Hr).
    split_and!; [done| |done]. cbn [fst]. rewrite Hc. cbn [record_call calls].
    by rewrite <- app_assoc.
  - apply bind_raise. by apply auth_domain_get_missing_eq.
Qed.

Lemma auth_domain_realm_configure_any name realm b pg nm descr kw h :
  match lookup_dn (domain_dn name) (remote h) with
  | None =>
      not_found h (auth_domain_realm_configure name realm b pg nm descr kw h)
        name "auth_domain_realm_configure"
  | Some r =>
      ∃ mo,
        wrote h (auth_domain_realm_configure name realm b pg nm descr kw h)
          [CQuery (domain_dn name)] (CSet mo) mo
  end.
Proof.
  unfold auth_domain_realm_configure.
  destruct (lookup_dn (domain_dn name) (remote h)) as [r|] eqn:Hl.
  - rewrite (bind_ok _ _ _ _ _ (auth_domain_get_found_eq name _ h r Hl)).
    cbv zeta. set (mo := set_prop_multiple _ kw). clearbody mo. exists mo.
    destruct (set_mo_commit_any mo
                (record_call (CQuery (domain_dn name)) h))
      as (h' & res & -> & Hb & Hc & Hr).
    split_and!; [done| |done]. cbn [fst]. rewrite Hc. cbn [record_call calls].
    by rewrite <- app_assoc.
  - apply bind_raise. by apply auth_domain_get_missing_eq.
Qed.
End every_handle.

Section every_handle_theorems.
Implicit Types (h : UcsHandle) (db : list ManagedObject) (cs : list call)
               (mo r : ManagedObject) (kw : kwargs) (name : string).

(** X1: whatever was staged on the handle before, an operation that
    writes ends with [commit] and leaves nothing staged, whether the commit
    succeeds or is rejected; [auth_domain_get], [auth_domain_exists] and an
    operation stopped by a missing domain leave the staged work as they
    found it. *)
Theorem nothing_left_staged h name :
  (∀ caller, commit_buf (auth_domain_get name caller h).1 = commit_buf h) ∧
  (∀ kw, commit_buf (auth_domain_exists name kw h).1 = commit_buf h) ∧
  (∀ rp st descr kw,
     commit_buf (auth_domain_create name rp st descr kw h).1 = []) ∧
  (∀ a b c d kw, commit_buf (native_auth_configure a b c d kw h).1 = []) ∧
  (∀ a b c d e f kw,
     commit_buf (native_auth_default a b c d e f kw h).1 = []) ∧
  (∀ a b c d kw, commit_buf (native_auth_console a b c d kw h).1 = []) ∧
  (∀ kw,
     commit_buf (auth_domain_modify name kw h).1 =
       if lookup_dn (domain_dn name) (remote h) is Some _ then []
       else commit_buf h) ∧
  commit_buf (auth_domain_delete name h).1 =
    (if lookup_dn (domain_dn name) (remote h) is Some _ then []
       else commit_buf h) ∧
  (∀ realm b pg nm descr kw,
     commit_buf (auth_domain_realm_configure name realm b pg nm descr kw h).1 =
       if lookup_dn (domain_dn name) (remote h) is Some _ then []
       else commit_buf h).
Proof.
  split_and!; intros.
  - by rewrite auth_domain_get_eq.
  - by rewrite auth_domain_exists_eq.
  - by destruct (auth_domain_create_any name rp st descr kw h) as (mo & ? & _).
  - by destruct (native_auth_configure_any a b c d kw h) as (mo & ? & _).
  - by destruct (native_auth_default_any a b c d e f kw h) as (mo & ? & _).
  - by destruct (native_auth_console_any a b c d kw h) as (mo & ? & _).
  - pose proof (auth_domain_modify_any name kw h) as H.
    destruct (lookup_dn _ _); [by destruct H|]. by rewrite H.
  - pose proof (auth_domain_delete_any name h) as H.
    destruct (lookup_dn _ _); [by destruct H|]. by rewrite H.
  - pose proof (auth_domain_realm_configure_any name realm b pg nm descr kw h)
      as H.
    destruct (lookup_dn _ _); [by destruct H as (mo & ? & _)|]. by rewrite H.
Qed.

(** X2: on every handle an operation makes at most one query, then at most
    one write, and a write is directly followed by its commit.
    [auth_domain_get] and [auth_domain_exists] make the query and nothing
    else. *)
Theorem operations_make_one_round_trip h name :
  (∀ caller,
     calls (auth_domain_get name caller h).1 =
       calls h ++ [CQuery (domain_dn name)]) ∧
  (∀ kw,
     calls (auth_domain_exists name kw h).1 =
       calls h ++ [CQuery (domain_dn name)]) ∧
  (∀ rp st descr kw, ∃ t,
     calls (auth_domain_create name rp st descr kw h).1 = calls h ++ t ∧
     one_round_trip t = true) ∧
  (∀ kw, ∃ t,
     calls (auth_domain_modify name kw h).1 = calls h ++ t ∧
     one_round_trip t = true) ∧
  (∃ t,
     calls (auth_domain_delete name h).1 = calls h ++ t ∧
     one_round_trip t = true) ∧
  (∀ realm b pg nm descr kw, ∃ t,
     calls (auth_domain_realm_configure name realm b pg nm descr kw h).1 =
       calls h ++ t ∧
     one_round_trip t = true) ∧
  (∀ a b c d kw, ∃ t,
     calls (native_auth_configure a b c d kw h).1 = calls h ++ t ∧
     one_round_trip t = true) ∧
  (∀ a b c d e f kw, ∃ t,
     calls (native_auth_default a b c d e f kw h).1 = calls h ++ t ∧
     one_round_trip t = true) ∧
  (∀ a b c d kw, ∃ t,
     calls (native_auth_console a b c d kw h).1 = calls h ++ t ∧
     one_round_trip t = true).
Proof.
  split_and!; intros.
  - by rewrite auth_domain_get_eq.
  - by rewrite auth_domain_exists_eq.
  - destruct (auth_domain_create_any name rp st descr kw h)
      as (mo & _ & Hc & _). by eexists.
  - pose proof (auth_domain_modify_any name kw h) as H.
    destruct (lookup_dn _ _).
    + destruct H as (_ & Hc & _). by eexists.
    + rewrite H. by eexists.
  - pose proof (auth_domain_delete_any name h) as H.
    destruct (lookup_dn _ _).
    + destruct H as (_ & Hc & _). by eexists.
    + rewrite H. by eexists.
  - pose proof (auth_domain_realm_configure_any name realm b pg nm descr kw h)
      as H.
    destruct (lookup_dn _ _).
    + destruct H as (mo & _ & Hc & _). by eexists.
    + rewrite H. by eexists.
  - destruct (native_auth_configure_any a b c d kw h) as (mo & _ & Hc & _).
    by eexists.
  - destruct (native_auth_default_any a b c d e f kw h) as (mo & _ & Hc & _).
    by eexists.
  - destruct (native_auth_console_any a b c d kw h) as (mo & _ & Hc & _).
    by eexists.
Qed.

(** X3: where [UcsOperationError] comes from.  [auth_domain_exists] never
    raises.  [auth_domain_create] and the three native operations never
    raise [UcsOperationError].  [auth_domain_modify], [auth_domain_delete]
    and [auth_domain_realm_configure] raise it exactly when the domain is
    missing, under their own name and with the path in the message. *)
Theorem operation_error_provenance h name :
  (∀ kw, ∃ answer, (auth_domain_exists name kw h).2 = Ok answer) ∧
  (∀ rp st descr kw,
     ¬ raised_operation_error (auth_domain_create name rp st descr kw h).2) ∧
  (∀ a b c d kw,
     ¬ raised_operation_error (native_auth_configure a b c d kw h).2) ∧
  (∀ a b c d e f kw,
     ¬ raised_operation_error (native_auth_default a b c d e f kw h).2) ∧
  (∀ a b c d kw,
     ¬ raised_operation_error (native_auth_console a b c d kw h).2) ∧
  (∀ kw,
     (raised_operation_error (auth_domain_modify name kw h).2 ↔
      lookup_dn (domain_dn name) (remote h) = None) ∧
     ∀ op msg,
       (auth_domain_modify name kw h).2 = Raise (UcsOperationError op msg) →
       op = "auth_domain_modify" ∧ msg = does_not_exist (domain_dn name)) ∧
  ((raised_operation_error (auth_domain_delete name h).2 ↔
    lookup_dn (domain_dn name) (remote h) = None) ∧
   ∀ op msg,
     (auth_domain_delete name h).2 = Raise (UcsOperationError op msg) →
     op = "auth_domain_delete" ∧ msg = does_not_exist (domain_dn name)) ∧
  (∀ realm b pg nm descr kw,
     (raised_operation_error
        (auth_domain_realm_configure name realm b pg nm descr kw h).2 ↔
      lookup_dn (domain_dn name) (remote h) = None) ∧
     ∀ op msg,
       (auth_domain_realm_configure name realm b pg nm descr kw h).2 =
         Raise (UcsOperationError op msg) →
       op = "auth_domain_realm_configure" ∧
       msg = does_not_exist (domain_dn name)).
Proof.
  assert (Hw : ∀ A (out : UcsHandle * result A) before w a,
             wrote h out before w a → ¬ raised_operation_error out.2).
  { intros A out before w a (_ & _ & [Hr|[m Hr]]) (op & msg & He);
      congruence. }
  assert (Hn : ∀ A (out : UcsHandle * result A) operation,
             not_found h out name operation →
             raised_operation_error out.2 ∧
             ∀ op msg, out.2 = Raise (UcsOperationError op msg) →
                       op = operation ∧
                       msg = does_not_exist (domain_dn name)).
  { intros A out operation ->. split; [by do 2 eexists|].
    cbn [snd]. by intros op msg [= <- <-]. }
  split; [|split; [|split; [|split; [|split; [|split; [|split]]]]]]; intros.
  - rewrite auth_domain_exists_eq. by eexists.
  - destruct (auth_domain_create_any name rp st descr kw h) as (mo & H).
    by eapply Hw.
  - destruct (native_auth_configure_any a b c d kw h) as (mo & H).
    by eapply Hw.
  - destruct (native_auth_default_any a b c d e f kw h) as (mo & H).
    by eapply Hw.
  - destruct (native_auth_console_any a b c d kw h) as (mo & H).
    by eapply Hw.
  - pose proof (auth_domain_modify_any name kw h) as H.
    destruct (lookup_dn _ _).
    + apply Hw in H. split; [split; [done|done]|].
      intros op msg He. destruct H. by do 2 eexists.
    + apply Hn in H as [H1 H2]. by split.
  - pose proof (auth_domain_delete_any name h) as H.
    destruct (lookup_dn _ _).
    + apply Hw in H. split; [split; [done|done]|].
      intros op msg He. destruct H. by do 2 eexists.
    + apply Hn in H as [H1 H2]. by split.
  - pose proof (auth_domain_realm_configure_any name realm b pg nm descr kw h)
      as H.
    destruct (lookup_dn _ _).
    + destruct H as (mo & H).
      apply Hw in H. split; [split; [done|done]|].
      intros op msg He. destruct H. by do 2 eexists.
    + apply Hn in H as [H1 H2]. by split.
Qed.

(** X4: [auth_domain_exists] and [auth_domain_get] agree.  Both leave the
    handle in the same condition; when [auth_domain_exists] answers
    [(True, mo)], [auth_domain_get] returns [mo]; and with no expected
    properties [auth_domain_exists] answers [(False, None)] exactly when
    [auth_domain_get] raises. *)
Theorem auth_domain_exists_agrees_with_get h name caller :
  (∀ kw, (auth_domain_exists name kw h).1 = (auth_domain_get name caller h).1) ∧
  (∀ kw mo,
     (auth_domain_exists name kw h).2 = Ok (true, Some mo) →
     (auth_domain_get name caller h).2 = Ok mo) ∧
  (∀ mo,
     (auth_domain_exists name ∅ h).2 = Ok (true, Some mo) ↔
     (auth_domain_get name caller h).2 = Ok mo) ∧
  ((auth_domain_exists name ∅ h).2 = Ok (false, None) ↔
   raised_operation_error (auth_domain_get name caller h).2).
Proof.
  split_and!.
  - intros kw. by rewrite auth_domain_exists_eq, auth_domain_get_eq.
  - intros kw mo. rewrite auth_domain_exists_eq, auth_domain_get_eq.
    cbn [snd]. destruct (lookup_dn _ _) as [r|]; [|discriminate].
    destruct (check_prop_match r kw); [|discriminate]. by intros [= <-].
  - intros mo. rewrite auth_domain_exists_eq, auth_domain_get_eq.
    cbn [snd]. destruct (lookup_dn _ _) as [r|]; [|split; discriminate].
    rewrite check_prop_match_empty. split; by intros [= <-].
  - rewrite auth_domain_exists_eq, auth_domain_get_eq.
    cbn [snd]. destruct (lookup_dn _ _) as [r|].
    + rewrite check_prop_match_empty. split; [discriminate|].
      by intros (? & ? & ?).
    + split; [|done]. intros _. by do 2 eexists.
Qed.
End every_handle_theorems.

(** ** Behaviour on a handle at rest *)

Section at_rest.
Implicit Types (h : UcsHandle) (db : list ManagedObject) (cs : list call)
               (mo r : ManagedObject) (kw : kwargs) (name : string).

Lemma append_eq_self (s t : string) : s +:+ t = s → t = "".
Proof.
  induction s as [|a s IH]; simpl; [done|]. intros [= H]. by apply IH.
Qed.

(** A named value that is provided, and that the extra properties do not
    name, is held by the record; a named [None] is not part of it. *)
Lemma named_then_extra mo0 args kw k :
  kw !! k = None →
  mo_props (set_prop_multiple (set_prop_multiple mo0 args) kw) !! k =
    overlay (mo_props mo0 !! k) (args !! k).
Proof. intros Hk. by rewrite !props_set_prop_multiple, Hk. Qed.

Lemma named_then_extra_Some mo0 args kw k v :
  args !! k = Some v → v ≠ PNone → kw !! k = None →
  mo_props (set_prop_multiple (set_prop_multiple mo0 args) kw) !! k = Some v.
Proof.
  intros Ha Hv Hk. rewrite named_then_extra, Ha by done. simpl.
  by rewrite decide_False.
Qed.

(** What a write through [set_mo] and [commit] does to the remote tree of
    a handle at rest: the written path holds the provided fields, every
    other path is as it was. *)
Lemma set_mo_commit_frame db cs mo :
  ∃ h',
    (set_mo mo ;;; commit ;;; ret mo) (Handle db [] cs) = (h', Ok mo) ∧
    calls h' = cs ++ [CSet mo; CCommit] ∧
    idle h' ∧
    (∀ k v, mo_props mo !! k = Some v →
            remote_field (mo_dn mo) k (remote h') = v) ∧
    (∀ dn, dn ≠ mo_dn mo → lookup_dn dn (remote h') = lookup_dn dn db).
Proof.
  rewrite set_mo_commit. eexists. split_and!; try reflexivity.
  - intros k v Hk. cbn [remote]. by apply remote_field_upsert.
  - intros dn Hne. cbn [remote]. by apply lookup_dn_upsert_ne.
Qed.

(** X5: [native_auth_default] writes one record of class AaaDefaultAuth at
    its fixed path without looking anything up; a named value that is
    provided, and that the extra properties do not name, is held by the
    record it returns and by the remote tree afterwards; every other path
    is as it was. *)
Theorem native_auth_default_spec
    h realm session_timeout refresh_period provider_group nm descr kw k v :
  idle h →
  native_auth_default_args realm session_timeout refresh_period
    provider_group nm descr !! k = Some v →
  v ≠ PNone →
  kw !! k = None →
  ∃ h' mo,
    native_auth_default realm session_timeout refresh_period provider_group
      nm descr kw h = (h', Ok mo) ∧
    mo_class mo = "AaaDefaultAuth" ∧
    mo_dn mo = "sys/auth-realm/default-auth" ∧
    calls h' = calls h ++ [CSet mo; CCommit] ∧
    idle h' ∧
    getattr mo k = v ∧
    remote_field (mo_dn mo) k (remote h') = v ∧
    (∀ dn, dn ≠ mo_dn mo → lookup_dn dn (remote h') = lookup_dn dn (remote h)).
Proof.
  destruct h as [db buf cs]. unfold idle. cbn [commit_buf remote calls].
  intros -> Ha Hv Hk.
  unfold native_auth_default. cbv zeta.
  fold (native_auth_default_args realm session_timeout refresh_period
          provider_group nm descr).
  pose proof (named_then_extra_Some (AaaDefaultAuth _auth_realm_dn ∅)
                _ kw k v Ha Hv Hk) as Hm.
  set (mo := set_prop_multiple (set_prop_multiple _ _) kw) in *.
  assert (Hcl : mo_class mo = "AaaDefaultAuth").
  { unfold mo, AaaDefaultAuth. by rewrite !set_prop_multiple_class. }
  assert (Hdn : mo_dn mo = "sys/auth-realm/default-auth").
  { unfold mo, AaaDefaultAuth. by rewrite !set_prop_multiple_dn. }
  clearbody mo.
  destruct (set_mo_commit_frame db cs mo) as (h' & He & Hc & Hi & Hr & Hf).
  exists h', mo. split_and!; try done.
  - by apply getattr_lookup.
  - by apply Hr.
Qed.

Lemma native_auth_default_spec_witness :
  idle sample_handle ∧
  native_auth_default_args (PStr "radius") PNone PNone PNone PNone PNone
    !! "realm" = Some (PStr "radius") ∧
  PStr "radius" ≠ PNone ∧
  (∅ : kwargs) !! "realm" = None ∧
  ∃ h' mo,
    native_auth_default (PStr "radius") PNone PNone PNone PNone PNone ∅
      sample_handle = (h', Ok mo) ∧
    mo_class mo = "AaaDefaultAuth" ∧
    mo_dn mo = "sys/auth-realm/default-auth" ∧
    calls h' = calls sample_handle ++ [CSet mo; CCommit] ∧
    idle h' ∧
    getattr mo "realm" = PStr "radius" ∧
    remote_field (mo_dn mo) "realm" (remote h') = PStr "radius" ∧
    (∀ dn, dn ≠ mo_dn mo →
           lookup_dn dn (remote h') = lookup_dn dn (remote sample_handle)).
Proof.
  assert (Hv : PStr "radius" ≠ PNone) by discriminate.
  split_and!; [reflexivity|reflexivity|exact Hv|reflexivity|].
  exact (native_auth_default_spec sample_handle (PStr "radius") PNone PNone
           PNone PNone PNone ∅ "realm" (PStr "radius")
           eq_refl eq_refl Hv eq_refl).
Defined.

(** X6: [native_auth_console] writes one record of class AaaConsoleAuth at
    its fixed path without looking anything up; a named value that is
    provided, and that the extra properties do not name, is held by the
    record it returns and by the remote tree afterwards; every other path
    is as it was. *)
Theorem native_auth_console_spec h realm provider_group nm descr kw k v :
  idle h →
  native_auth_console_args realm provider_group nm descr !! k = Some v →
  v ≠ PNone →
  kw !! k = None →
  ∃ h' mo,
    native_auth_console realm provider_group nm descr kw h = (h', Ok mo) ∧
    mo_class mo = "AaaConsoleAuth" ∧
    mo_dn mo = "sys/auth-realm/console-auth" ∧
    calls h' = calls h ++ [CSet mo; CCommit] ∧
    idle h' ∧
    getattr mo k = v ∧
    remote_field (mo_dn mo) k (remote h') = v ∧
    (∀ dn, dn ≠ mo_dn mo → lookup_dn dn (remote h') = lookup_dn dn (remote h)).
Proof.
  destruct h as [db buf cs]. unfold idle. cbn [commit_buf remote calls].
  intros -> Ha Hv Hk.
  unfold native_auth_console. cbv zeta.
  fold (native_auth_console_args realm provider_group nm descr).
  pose proof (named_then_extra_Some (AaaConsoleAuth _auth_realm_dn ∅)
                _ kw k v Ha Hv Hk) as Hm.
  set (mo := set_prop_multiple (set_prop_multiple _ _) kw) in *.
  assert (Hcl : mo_class mo = "AaaConsoleAuth").
  { unfold mo, AaaConsoleAuth. by rewrite !set_prop_multiple_class. }
  assert (Hdn : mo_dn mo = "sys/auth-realm/console-auth").
  { unfold mo, AaaConsoleAuth. by rewrite !set_prop_multiple_dn. }
  clearbody mo.
  destruct (set_mo_commit_frame db cs mo) as (h' & He & Hc & Hi & Hr & Hf).
  exists h', mo. split_and!; try done.
  - by apply getattr_lookup.
  - by apply Hr.
Qed.

Lemma native_auth_console_spec_witness :
  idle sample_handle ∧
  native_auth_console_args (PStr "local") PNone PNone PNone
    !! "realm" = Some (PStr "local") ∧
  PStr "local" ≠ PNone ∧
  (∅ : kwargs) !! "realm" = None ∧
  ∃ h' mo,
    native_auth_console (PStr "local") PNone PNone PNone ∅
      sample_handle = (h', Ok mo) ∧
    mo_class mo = "AaaConsoleAuth" ∧
    mo_dn mo = "sys/auth-realm/console-auth" ∧
    calls h' = calls sample_handle ++ [CSet mo; CCommit] ∧
    idle h' ∧
    getattr mo "realm" = PStr "local" ∧
    remote_field (mo_dn mo) "realm" (remote h') = PStr "local" ∧
    (∀ dn, dn ≠ mo_dn mo →
           lookup_dn dn (remote h') = lookup_dn dn (remote sample_handle)).
Proof.
  assert (Hv : PStr "local" ≠ PNone) by discriminate.
  split_and!; [reflexivity|reflexivity|exact Hv|reflexivity|].
  exact (native_auth_console_spec sample_handle (PStr "local") PNone PNone
           PNone ∅ "realm" (PStr "local") eq_refl eq_refl Hv eq_refl).
Defined.

(** X7: when the domain exists, [auth_domain_realm_configure] writes the
    realm record below the domain it fetched and nothing else: a named
    value that is provided, and that the extra properties do not name, is
    held by the record and by the remote tree, and the domain record itself
    is as it was. *)
Theorem auth_domain_realm_configure_found
    h name obj realm use2_factor provider_group nm descr kw k v :
  idle h →
  lookup_dn (domain_dn name) (remote h) = Some obj →
  auth_domain_realm_configure_args realm use2_factor provider_group nm descr
    !! k = Some v →
  v ≠ PNone →
  kw !! k = None →
  ∃ h' mo,
    auth_domain_realm_configure name realm use2_factor provider_group nm
      descr kw h = (h', Ok mo) ∧
    mo_class mo = "AaaDomainAuth" ∧
    mo_dn mo = domain_dn name +:+ "/domain-auth" ∧
    idle h' ∧
    getattr mo k = v ∧
    remote_field (mo_dn mo) k (remote h') = v ∧
    lookup_dn (domain_dn name) (remote h') = Some obj ∧
    (∀ dn, dn ≠ mo_dn mo → lookup_dn dn (remote h') = lookup_dn dn (remote h)).
Proof.
  destruct h as [db buf cs]. unfold idle. cbn [commit_buf remote calls].
  intros -> Hl Ha Hv Hk.
  pose proof (lookup_dn_Some _ _ _ Hl) as [Hodn _].
  unfold auth_domain_realm_configure.
  rewrite (bind_ok _ _ _ _ _
             (auth_domain_get_found_eq name _ (Handle db [] cs) obj Hl)).
  cbv zeta. unfold record_call. cbn [commit_buf remote calls].
  fold (auth_domain_realm_configure_args realm use2_factor provider_group
          nm descr).
  assert (Hm : mo_props
                 (set_prop_multiple
                    (AaaDomainAuth (mo_dn obj)
                       (auth_domain_realm_configure_args realm use2_factor
                          provider_group nm descr)) kw) !! k = Some v).
  { unfold AaaDomainAuth. by apply named_then_extra_Some. }
  set (mo := set_prop_multiple (AaaDomainAuth _ _) kw) in *.
  assert (Hcl : mo_class mo = "AaaDomainAuth").
  { unfold mo, AaaDomainAuth. by rewrite !set_prop_multiple_class. }
  assert (Hdn : mo_dn mo = domain_dn name +:+ "/domain-auth").
  { unfold mo, AaaDomainAuth. by rewrite !set_prop_multiple_dn, Hodn. }
  clearbody mo.
  destruct (set_mo_commit_frame db (cs ++ [CQuery (domain_dn name)]) mo)
    as (h' & He & Hc & Hi & Hr & Hf).
  exists h', mo. split_and!; try done.
  - by apply getattr_lookup.
  - by apply Hr.
  - rewrite Hf; [done|]. rewrite Hdn. intros Heq. symmetry in Heq.
    by apply append_eq_self in Heq.
Qed.

Lemma auth_domain_realm_configure_found_witness :
  idle sample_handle ∧
  lookup_dn (domain_dn "d1") (remote sample_handle) = Some sample_domain ∧
  auth_domain_realm_configure_args (PStr "ldap") false PNone PNone PNone
    !! "realm" = Some (PStr "ldap") ∧
  PStr "ldap" ≠ PNone ∧
  (∅ : kwargs) !! "realm" = None ∧
  ∃ h' mo,
    auth_domain_realm_configure "d1" (PStr "ldap") false PNone PNone PNone ∅
      sample_handle = (h', Ok mo) ∧
    mo_class mo = "AaaDomainAuth" ∧
    mo_dn mo = domain_dn "d1" +:+ "/domain-auth" ∧
    idle h' ∧
    getattr mo "realm" = PStr "ldap" ∧
    remote_field (mo_dn mo) "realm" (remote h') = PStr "ldap" ∧
    lookup_dn (domain_dn "d1") (remote h') = Some sample_domain ∧
    (∀ dn, dn ≠ mo_dn mo →
           lookup_dn dn (remote h') = lookup_dn dn (remote sample_handle)).
Proof.
  assert (Hv : PStr "ldap" ≠ PNone) by discriminate.
  split_and!; [reflexivity|reflexivity|reflexivity|exact Hv|reflexivity|].
  exact (auth_domain_realm_configure_found sample_handle "d1" sample_domain
           (PStr "ldap") false PNone PNone PNone ∅ "realm" (PStr "ldap")
           eq_refl eq_refl eq_refl Hv eq_refl).
Defined.
End at_rest.

(** ** How the operations on auth domains compose *)

Section composition.
Implicit Types (h : UcsHandle) (db : list ManagedObject) (cs : list call)
               (mo r : ManagedObject) (kw : kwargs) (name : string).

Lemma auth_domain_create_eq db cs name rp st descr kw :
  auth_domain_create name rp st descr kw (Handle db [] cs) =
    (Handle (upsert (domain_record name rp st descr kw) db) []
            (cs ++ [CAdd (domain_record name rp st descr kw) true; CCommit]),
     Ok (domain_record name rp st descr kw)).
Proof. unfold auth_domain_create. cbv zeta. apply add_mo_commit. Qed.

Lemma domain_record_dn name rp st descr kw :
  mo_dn (domain_record name rp st descr kw) = domain_dn name.
Proof.
  unfold domain_record. rewrite set_prop_multiple_dn. apply AaaDomain_dn.
Qed.

Lemma auth_domain_modify_eq db cs name kw r :
  lookup_dn (domain_dn name) db = Some r →
  auth_domain_modify name kw (Handle db [] cs) =
    (Handle (upsert (set_prop_multiple r kw) db) []
            (cs ++ [CQuery (domain_dn name); CSet (set_prop_multiple r kw);
                    CCommit]),
     Ok (set_prop_multiple r kw)).
Proof.
  intros Hl. unfold auth_domain_modify.
  rewrite (bind_ok _ _ _ _ _
             (auth_domain_get_found_eq name _ (Handle db [] cs) r Hl)).
  cbv zeta. unfold record_call. cbn [commit_buf remote calls].
  rewrite set_mo_commit. by rewrite <- app_assoc.
Qed.

Lemma auth_domain_delete_eq db cs name r :
  lookup_dn (domain_dn name) db = Some r →
  auth_domain_delete name (Handle db [] cs) =
    (Handle (filter (fun r' => mo_dn r' ≠ domain_dn name) db) []
            (cs ++ [CQuery (domain_dn name); CRemove r; CCommit]),
     Ok tt).
Proof.
  intros Hl. pose proof (lookup_dn_Some _ _ _ Hl) as [Hdn _].
  unfold auth_domain_delete.
  rewrite (bind_ok _ _ _ _ _
             (auth_domain_get_found_eq name _ (Handle db [] cs) r Hl)).
  unfold record_call. cbn [commit_buf remote calls].
  rewrite (remove_mo_commit _ _ r r) by (by rewrite Hdn).
  by rewrite Hdn, <- app_assoc.
Qed.

Lemma lookup_dn_modified db name r kw :
  lookup_dn (domain_dn name) db = Some r →
  lookup_dn (domain_dn name) (upsert (set_prop_multiple r kw) db) =
    Some (set_prop_multiple r kw).
Proof.
  intros Hl. pose proof (lookup_dn_Some _ _ _ Hl) as [Hdn _].
  rewrite <- Hdn at 1. rewrite <- (set_prop_multiple_dn r kw) at 1.
  rewrite lookup_dn_upsert. f_equal.
  apply upserted_set_prop_multiple. by rewrite Hdn.
Qed.

(** Applying the same properties again changes nothing. *)
Lemma set_prop_multiple_idemp r kw :
  set_prop_multiple (set_prop_multiple r kw) kw = set_prop_multiple r kw.
Proof.
  pose proof (set_prop_multiple_class (set_prop_multiple r kw) kw) as Hc.
  pose proof (set_prop_multiple_dn (set_prop_multiple r kw) kw) as Hd.
  assert (mo_props (set_prop_multiple (set_prop_multiple r kw) kw) =
          mo_props (set_prop_multiple r kw)) as Hp.
  { apply map_eq. intros k. rewrite !props_set_prop_multiple.
    unfold overlay. destruct (kw !! k) as [v|]; [|done]. by case_decide. }
  destruct (set_prop_multiple (set_prop_multiple r kw) kw),
           (set_prop_multiple r kw). simpl in *. by subst.
Qed.

Lemma filter_not_at_dn dn db :
  lookup_dn dn db = None → filter (fun r => mo_dn r ≠ dn) db = db.
Proof.
  rewrite lookup_dn_None. intros Hno.
  induction db as [|r db IH]; [done|]. rewrite filter_cons.
  rewrite decide_True by (apply Hno; by left).
  f_equal. apply IH. intros r' Hr'. apply Hno. by right.
Qed.

(** X8: operations on one auth domain do not touch another: after
    [auth_domain_create], [auth_domain_modify] or [auth_domain_delete] on
    [name], whether it returned or raised, [auth_domain_get] on a different
    name answers as before. *)
Theorem auth_domains_are_isolated h name name' caller :
  idle h →
  name ≠ name' →
  (∀ rp st descr kw,
     (auth_domain_get name' caller
        (auth_domain_create name rp st descr kw h).1).2 =
       (auth_domain_get name' caller h).2) ∧
  (∀ kw,
     (auth_domain_get name' caller (auth_domain_modify name kw h).1).2 =
       (auth_domain_get name' caller h).2) ∧
  (auth_domain_get name' caller (auth_domain_delete name h).1).2 =
    (auth_domain_get name' caller h).2.
Proof.
  destruct h as [db buf cs]. unfold idle. cbn [commit_buf remote calls].
  intros -> Hne.
  assert (Hdn : domain_dn name' ≠ domain_dn name).
  { intros Heq. apply Hne. symmetry. by apply domain_dn_inj. }
  split_and!; intros; rewrite !auth_domain_get_eq; cbn [snd].
  - rewrite auth_domain_create_eq. cbn [fst remote].
    rewrite lookup_dn_upsert_ne; [done|]. by rewrite domain_record_dn.
  - destruct (lookup_dn (domain_dn name) db) as [r|] eqn:Hl.
    + rewrite (auth_domain_modify_eq _ _ _ _ r Hl). cbn [fst remote].
      rewrite lookup_dn_upsert_ne; [done|].
      rewrite set_prop_multiple_dn.
      apply lookup_dn_Some in Hl as [-> _]. done.
    + pose proof (auth_domain_modify_any name kw (Handle db [] cs)) as H.
      cbn [remote] in H. rewrite Hl in H. by rewrite H.
  - destruct (lookup_dn (domain_dn name) db) as [r|] eqn:Hl.
    + rewrite (auth_domain_delete_eq _ _ _ r Hl). cbn [fst remote].
      by rewrite lookup_dn_removed_ne.
    + pose proof (auth_domain_delete_any name (Handle db [] cs)) as H.
      cbn [remote] in H. rewrite Hl in H. by rewrite H.
Qed.

Lemma auth_domains_are_isolated_witness :
  idle sample_handle ∧
  "d2" ≠ "d1" ∧
  (∀ rp st descr kw,
     (auth_domain_get "d1" "auth_domain_get"
        (auth_domain_create "d2" rp st descr kw sample_handle).1).2 =
       (auth_domain_get "d1" "auth_domain_get" sample_handle).2) ∧
  (∀ kw,
     (auth_domain_get "d1" "auth_domain_get"
        (auth_domain_modify "d2" kw sample_handle).1).2 =
       (auth_domain_get "d1" "auth_domain_get" sample_handle).2) ∧
  (auth_domain_get "d1" "auth_domain_get"
     (auth_domain_delete "d2" sample_handle).1).2 =
    (auth_domain_get "d1" "auth_domain_get" sample_handle).2.
Proof.
  assert (Hne : "d2" ≠ "d1") by discriminate.
  split_and!; [reflexivity|exact Hne|..];
    apply (auth_domains_are_isolated sample_handle "d2" "d1"
             "auth_domain_get" eq_refl Hne).
Defined.

(** X9: [auth_domain_delete] right after [auth_domain_create] always
    succeeds and leaves no record at the domain's path; when the name was
    free before the create, the remote tree is back to what it was. *)
Theorem auth_domain_create_then_delete h name rp st descr kw :
  idle h →
  ∃ h1 mo h2,
    auth_domain_create name rp st descr kw h = (h1, Ok mo) ∧
    auth_domain_delete name h1 = (h2, Ok tt) ∧
    idle h2 ∧
    lookup_dn (domain_dn name) (remote h2) = None ∧
    (lookup_dn (domain_dn name) (remote h) = None → remote h2 = remote h).
Proof.
  destruct h as [db buf cs]. unfold idle. cbn [commit_buf remote calls].
  intros ->. rewrite auth_domain_create_eq.
  set (mo := domain_record name rp st descr kw).
  assert (Hdn : mo_dn mo = domain_dn name) by apply domain_record_dn.
  clearbody mo.
  assert (Hl : lookup_dn (domain_dn name) (upsert mo db) =
               Some (upserted mo db)).
  { by rewrite <- Hdn, lookup_dn_upsert. }
  do 3 eexists. split_and!.
  - reflexivity.
  - by apply auth_domain_delete_eq.
  - reflexivity.
  - cbn [remote]. apply lookup_dn_removed.
  - cbn [remote]. intros Hfree. unfold upsert. rewrite Hdn, Hfree.
    rewrite filter_app, filter_cons, filter_nil.
    rewrite decide_False by (intros Hx; by apply Hx).
    rewrite app_nil_r. by apply filter_not_at_dn.
Qed.

Lemma auth_domain_create_then_delete_witness :
  idle sample_handle ∧
  ∃ h1 mo h2,
    auth_domain_create "d2" default_refresh_period default_session_timeout
      PNone ∅ sample_handle = (h1, Ok mo) ∧
    auth_domain_delete "d2" h1 = (h2, Ok tt) ∧
    idle h2 ∧
    lookup_dn (domain_dn "d2") (remote h2) = None ∧
    (lookup_dn (domain_dn "d2") (remote sample_handle) = None →
     remote h2 = remote sample_handle).
Proof.
  split; [reflexivity|].
  exact (auth_domain_create_then_delete sample_handle "d2"
           default_refresh_period default_session_timeout PNone ∅ eq_refl).
Defined.

(** X10: [auth_domain_modify] with the same properties a second time
    returns the same record and leaves the remote tree as the first call
    left it. *)
Theorem auth_domain_modify_twice h name kw r :
  idle h →
  lookup_dn (domain_dn name) (remote h) = Some r →
  ∃ h1 h2 mo,
    auth_domain_modify name kw h = (h1, Ok mo) ∧
    auth_domain_modify name kw h1 = (h2, Ok mo) ∧
    remote h2 = remote h1.
Proof.
  destruct h as [db buf cs]. unfold idle. cbn [commit_buf remote calls].
  intros -> Hl.
  rewrite (auth_domain_modify_eq _ _ _ _ r Hl).
  do 3 eexists. split_and!; [reflexivity| |].
  - rewrite (auth_domain_modify_eq _ _ _ _ (set_prop_multiple r kw))
      by (by apply lookup_dn_modified).
    rewrite set_prop_multiple_idemp. reflexivity.
  - cbn [remote]. apply upsert_idemp.
Qed.

Lemma auth_domain_modify_twice_witness :
  idle sample_handle ∧
  lookup_dn (domain_dn "d1") (remote sample_handle) = Some sample_domain ∧
  ∃ h1 h2 mo,
    auth_domain_modify "d1" {[ "session_timeout" := PStr "1000" ]}
      sample_handle = (h1, Ok mo) ∧
    auth_domain_modify "d1" {[ "session_timeout" := PStr "1000" ]} h1 =
      (h2, Ok mo) ∧
    remote h2 = remote h1.
Proof.
  split_and!; [reflexivity|reflexivity|].
  exact (auth_domain_modify_twice sample_handle "d1"
           {[ "session_timeout" := PStr "1000" ]} sample_domain
           eq_refl eq_refl).
Defined.

(** X11: after [auth_domain_create], [auth_domain_exists] asked for the
    refresh period and the session timeout that were given, or for the
    extra properties that were given, answers [(True, record)] with the
    record [auth_domain_get] returns. *)
Theorem auth_domain_create_then_exists h name rp st descr kw caller :
  idle h →
  rp ≠ PNone → st ≠ PNone →
  kw !! "refresh_period" = None → kw !! "session_timeout" = None →
  all_provided kw →
  ∃ h1 mo r,
    auth_domain_create name rp st descr kw h = (h1, Ok mo) ∧
    (auth_domain_get name caller h1).2 = Ok r ∧
    (auth_domain_exists name
       {[ "refresh_period" := rp; "session_timeout" := st ]} h1).2 =
      Ok (true, Some r) ∧
    (auth_domain_exists name kw h1).2 = Ok (true, Some r).
Proof.
  destruct h as [db buf cs]. unfold idle. cbn [commit_buf remote calls].
  intros -> Hrp Hst Hkrp Hkst Hkw. rewrite auth_domain_create_eq.
  assert (Hprp : mo_props (domain_record name rp st descr kw)
                   !! "refresh_period" = Some rp).
  { unfold domain_record, AaaDomain.
    apply named_then_extra_Some; [|done..]. vm_compute. reflexivity. }
  assert (Hpst : mo_props (domain_record name rp st descr kw)
                   !! "session_timeout" = Some st).
  { unfold domain_record, AaaDomain.
    apply named_then_extra_Some; [|done..]. vm_compute. reflexivity. }
  assert (Hpkw : ∀ k v, kw !! k = Some v →
                 mo_props (domain_record name rp st descr kw) !! k = Some v).
  { intros k v Hk. unfold domain_record.
    apply props_set_prop_multiple_Some; [done|]. by apply (Hkw k). }
  set (mo := domain_record name rp st descr kw) in *.
  assert (Hdn : mo_dn mo = domain_dn name) by apply domain_record_dn.
  clearbody mo.
  assert (Hl : lookup_dn (domain_dn name) (upsert mo db) =
               Some (upserted mo db)).
  { by rewrite <- Hdn, lookup_dn_upsert. }
  exists (Handle (upsert mo db) [] (cs ++ [CAdd mo true; CCommit])), mo,
         (upserted mo db).
  split_and!.
  - reflexivity.
  - rewrite auth_domain_get_eq. cbn [snd remote]. by rewrite Hl.
  - rewrite auth_domain_exists_eq. cbn [snd remote]. rewrite Hl.
    assert (check_prop_match (upserted mo db)
              {[ "refresh_period" := rp; "session_timeout" := st ]} = true)
      as ->; [|done].
    apply check_prop_match_spec. intros k v Hk.
    apply lookup_insert_Some in Hk as [[<- <-]|[_ Hk]].
    + rewrite (getattr_upserted_Some _ _ _ _ Hprp). apply py_eq_refl.
    + apply lookup_singleton_Some in Hk as [<- <-].
      rewrite (getattr_upserted_Some _ _ _ _ Hpst). apply py_eq_refl.
  - rewrite auth_domain_exists_eq. cbn [snd remote]. rewrite Hl.
    assert (check_prop_match (upserted mo db) kw = true) as ->; [|done].
    apply check_prop_match_spec. intros k v Hk.
    rewrite (getattr_upserted_Some _ _ _ _ (Hpkw k v Hk)). apply py_eq_refl.
Qed.

Lemma auth_domain_create_then_exists_witness :
  idle sample_handle ∧
  default_refresh_period ≠ PNone ∧ default_session_timeout ≠ PNone ∧
  sample_extra !! "refresh_period" = None ∧
  sample_extra !! "session_timeout" = None ∧
  all_provided sample_extra ∧
  ∃ h1 mo r,
    auth_domain_create "d2" default_refresh_period default_session_timeout
      PNone sample_extra sample_handle = (h1, Ok mo) ∧
    (auth_domain_get "d2" "auth_domain_get" h1).2 = Ok r ∧
    (auth_domain_exists "d2"
       {[ "refresh_period" := default_refresh_period;
          "session_timeout" := default_session_timeout ]} h1).2 =
      Ok (true, Some r) ∧
    (auth_domain_exists "d2" sample_extra h1).2 = Ok (true, Some r).
Proof.
  assert (H1 : default_refresh_period ≠ PNone) by discriminate.
  assert (H2 : default_session_timeout ≠ PNone) by discriminate.
  assert (H3 : all_provided sample_extra).
  { apply (bool_decide_unpack _). vm_compute. exact I. }
  split_and!; [reflexivity|exact H1|exact H2|reflexivity|reflexivity|exact H3|].
  exact (auth_domain_create_then_exists sample_handle "d2"
           default_refresh_period default_session_timeout PNone sample_extra
           "auth_domain_get" eq_refl H1 H2 eq_refl eq_refl H3).
Defined.

(** X12: after [auth_domain_modify] with properties that are all provided,
    [auth_domain_exists] asked for the same properties answers
    [(True, record)] with the record the modify returned. *)
Theorem auth_domain_modify_then_exists h name kw r :
  idle h →
  lookup_dn (domain_dn name) (remote h) = Some r →
  all_provided kw →
  ∃ h1 mo,
    auth_domain_modify name kw h = (h1, Ok mo) ∧
    (auth_domain_exists name kw h1).2 = Ok (true, Some mo).
Proof.
  destruct h as [db buf cs]. unfold idle. cbn [commit_buf remote calls].
  intros -> Hl Hkw.
  rewrite (auth_domain_modify_eq _ _ _ _ r Hl).
  do 2 eexists. split; [reflexivity|].
  rewrite auth_domain_exists_eq. cbn [snd remote].
  rewrite (lookup_dn_modified _ _ _ _ Hl).
  assert (check_prop_match (set_prop_multiple r kw) kw = true) as ->; [|done].
  apply check_prop_match_spec. intros k v Hk.
  rewrite (getattr_set_prop_multiple_Some _ _ _ _ Hk).
  - apply py_eq_refl.
  - by apply (Hkw k).
Qed.

Lemma auth_domain_modify_then_exists_witness :
  idle sample_handle ∧
  lookup_dn (domain_dn "d1") (remote sample_handle) = Some sample_domain ∧
  all_provided {[ "session_timeout" := PStr "1000" ]} ∧
  ∃ h1 mo,
    auth_domain_modify "d1" {[ "session_timeout" := PStr "1000" ]}
      sample_handle = (h1, Ok mo) ∧
    (auth_domain_exists "d1" {[ "session_timeout" := PStr "1000" ]} h1).2 =
      Ok (true, Some mo).
Proof.
  assert (H3 : all_provided {[ "session_timeout" := PStr "1000" ]}).
  { apply (bool_decide_unpack _). vm_compute. exact I. }
  split_and!; [reflexivity|reflexivity|exact H3|].
  exact (auth_domain_modify_then_exists sample_handle "d1"
           {[ "session_timeout" := PStr "1000" ]} sample_domain
           eq_refl eq_refl H3).
Defined.

(** X13: once [auth_domain_delete] has succeeded the domain is gone for
    every operation: [auth_domain_exists] answers [(False, None)] whatever
    it is asked for, and a second [auth_domain_delete], an
    [auth_domain_modify] and an [auth_domain_realm_configure] raise
    [UcsOperationError] and leave the remote tree alone. *)
Theorem auth_domain_delete_then_gone h name r :
  idle h →
  lookup_dn (domain_dn name) (remote h) = Some r →
  ∃ h1,
    auth_domain_delete name h = (h1, Ok tt) ∧
    (∀ kw, (auth_domain_exists name kw h1).2 = Ok (false, None)) ∧
    not_found h1 (auth_domain_delete name h1) name "auth_domain_delete" ∧
    (∀ kw,
       not_found h1 (auth_domain_modify name kw h1) name
         "auth_domain_modify") ∧
    (∀ realm b pg nm descr kw,
       not_found h1
         (auth_domain_realm_configure name realm b pg nm descr kw h1) name
         "auth_domain_realm_configure").
Proof.
  destruct h as [db buf cs]. unfold idle. cbn [commit_buf remote calls].
  intros -> Hl.
  rewrite (auth_domain_delete_eq _ _ _ r Hl). eexists.
  split; [reflexivity|].
  set (h1 := Handle _ _ _).
  assert (Hgone : lookup_dn (domain_dn name) (remote h1) = None)
    by apply lookup_dn_removed.
  clearbody h1. split_and!; intros.
  - rewrite auth_domain_exists_eq. cbn [snd]. by rewrite Hgone.
  - pose proof (auth_domain_delete_any name h1) as H. by rewrite Hgone in H.
  - pose proof (auth_domain_modify_any name kw h1) as H.
    by rewrite Hgone in H.
  - pose proof (auth_domain_realm_configure_any name realm b pg nm descr kw h1)
      as H. by rewrite Hgone in H.
Qed.

Lemma auth_domain_delete_then_gone_witness :
  idle sample_handle ∧
  lookup_dn (domain_dn "d1") (remote sample_handle) = Some sample_domain ∧
  ∃ h1,
    auth_domain_delete "d1" sample_handle = (h1, Ok tt) ∧
    (∀ kw, (auth_domain_exists "d1" kw h1).2 = Ok (false, None)) ∧
    not_found h1 (auth_domain_delete "d1" h1) "d1" "auth_domain_delete" ∧
    (∀ kw,
       not_found h1 (auth_domain_modify "d1" kw h1) "d1"
         "auth_domain_modify") ∧
    (∀ realm b pg nm descr kw,
       not_found h1
         (auth_domain_realm_configure "d1" realm b pg nm descr kw h1) "d1"
         "auth_domain_realm_configure").
Proof.
  split_and!; [reflexivity|reflexivity|].
  exact (auth_domain_delete_then_gone sample_handle "d1" sample_domain
           eq_refl eq_refl).
Defined.

Lemma overwrite_found_unique r db :
  unique_paths db → lookup_dn (mo_dn r) db = Some r → overwrite r <$> db = db.
Proof.
  unfold unique_paths. intros Hnd Hl.
  apply lookup_dn_Some in Hl as [_ Hin].
  induction db as [|x db IH]; [done|].
  rewrite fmap_cons in Hnd. apply NoDup_cons in Hnd as [Hx Hnd].
  rewrite fmap_cons. apply elem_of_cons in Hin as [->|Hin].
  - rewrite overwrite_self. f_equal.
    rewrite <- (list_fmap_id db) at 2. apply list_fmap_ext.
    intros i y Hy. simpl. apply overwrite_other. intros Heq. apply Hx.
    rewrite <- Heq. apply list_elem_of_fmap_2. by eapply list_elem_of_lookup_2.
  - rewrite (IH Hnd Hin). f_equal. apply overwrite_other.
    intros Heq. apply Hx. rewrite Heq. by apply list_elem_of_fmap_2.
Qed.

(** X14: [auth_domain_modify] with no properties still submits and commits
    the record it fetched, and changes nothing: it returns the fetched
    record and the remote tree is as it was. *)
Theorem auth_domain_modify_nothing h name r :
  idle h →
  unique_paths (remote h) →
  lookup_dn (domain_dn name) (remote h) = Some r →
  ∃ h1,
    auth_domain_modify name ∅ h = (h1, Ok r) ∧
    calls h1 = calls h ++ [CQuery (domain_dn name); CSet r; CCommit] ∧
    remote h1 = remote h.
Proof.
  destruct h as [db buf cs]. unfold idle. cbn [commit_buf remote calls].
  intros -> Hnd Hl.
  rewrite (auth_domain_modify_eq _ _ _ _ r Hl), set_prop_multiple_empty.
  eexists. split_and!; [reflexivity|reflexivity|]. cbn [remote].
  pose proof (lookup_dn_Some _ _ _ Hl) as [Hdn _].
  unfold upsert. rewrite Hdn, Hl. apply overwrite_found_unique; [done|].
  by rewrite Hdn.
Qed.

Lemma auth_domain_modify_nothing_witness :
  idle sample_handle ∧
  unique_paths (remote sample_handle) ∧
  lookup_dn (domain_dn "d1") (remote sample_handle) = Some sample_domain ∧
  ∃ h1,
    auth_domain_modify "d1" ∅ sample_handle = (h1, Ok sample_domain) ∧
    calls h1 =
      calls sample_handle ++
        [CQuery (domain_dn "d1"); CSet sample_domain; CCommit] ∧
    remote h1 = remote sample_handle.
Proof.
  assert (Hu : unique_paths (remote sample_handle)).
  { apply (bool_decide_unpack _). vm_compute. exact I. }
  split_and!; [reflexivity|exact Hu|reflexivity|].
  exact (auth_domain_modify_nothing sample_handle "d1" sample_domain
           eq_refl Hu eq_refl).
Defined.
End composition.
